(** * TheSet: synchronisation of artists, shows and track catalogues,
      and the show-detail hook

    A shallow embedding of

    - [saveArtistToDatabase] and [fetchAndStoreArtistTracks]
      (the artists database module),
    - [saveShowToDatabase] (src/lib/api/database/shows.ts),
    - the [availableTracks] memo, the [handleAddSongClick] callback and the
      document-metadata effect of [useShowDetail]
      (src/hooks/use-show-detail.ts).

    The asynchronous functions talk to a store (Supabase), to the Spotify
    catalogue and to the clock.  None of these is part of the repository, so
    they are an arbitrary [Backend]: every call may answer, answer with an
    error object, or throw.  A computation is a function from the world
    (backend state, trace of calls made so far, queue of background tasks)
    to a completion and a new world. *)

From Stdlib Require Import ZArith QArith String List Bool Lia.
From stdpp Require Import base option list gmap strings.
Import ListNotations.

Local Open Scope string_scope.
Local Open Scope list_scope.
Local Open Scope Z_scope.

(** ** JavaScript values as the code uses them *)

Module Js.

(** [!!x] for a value that is a string, [null] or [undefined]. *)
Definition truthy_str (o : option string) : bool :=
  match o with
  | Some s => negb (String.eqb s "")
  | None => false
  end.

(** [!!x] for a value that is an integral number, [null] or [undefined]. *)
Definition truthy_num (o : option Z) : bool :=
  match o with
  | Some z => negb (z =? 0)
  | None => false
  end.

(** [!!x] for a value that is an array or object, [null] or [undefined]:
    arrays and objects are truthy, the empty array included. *)
Definition truthy_obj {A} (o : option A) : bool :=
  match o with
  | Some _ => true
  | None => false
  end.

(** [a || b] on strings. *)
Definition or_str (a b : option string) : option string :=
  if truthy_str a then a else b.

(** [a || b] on numbers. *)
Definition or_num (a b : option Z) : option Z :=
  if truthy_num a then a else b.

(** [s.includes(sub)]. *)
Definition includes (sub s : string) : bool :=
  match String.index 0 sub s with
  | Some _ => true
  | None => false
  end.

(** [data?.[0]] for [data] an array, [null] or [undefined]. *)
Definition first {A} (data : option (list A)) : option A :=
  match data with
  | Some (x :: _) => Some x
  | _ => None
  end.

(** [data?.[0] || fallback] where the elements are objects. *)
Definition first_or {A} (data : option (list A)) (fallback : A) : A :=
  match first data with
  | Some x => x
  | None => fallback
  end.

(** The value of an [updated_at] (or [date]) field as [new Date(...)] sees
    it.  ISO strings and instants are identified: [toISOString] followed by
    parsing is the identity on valid dates at millisecond precision. *)
Inductive Timestamp :=
| TsMissing              (* null, undefined or the empty string *)
| TsAt (ms : Z)          (* a string that parses to this instant *)
| TsGarbage.             (* a non-empty string that does not parse *)

(** [new Date(t || 0).getTime()]; [None] is NaN. *)
Definition getTime_or_epoch (t : Timestamp) : option Z :=
  match t with
  | TsMissing => Some 0
  | TsAt ms => Some ms
  | TsGarbage => None
  end.

(** [(now.getTime() - lastUpdated.getTime()) / unit]; [None] is NaN.
    The quotient is kept exact.  In double arithmetic the difference of
    two instants is an exact integer, division is monotone and the
    thresholds compared against (24 and 7) are integers, so comparing the
    rounded quotient gives the same answer as comparing the exact one. *)
Definition elapsed (unit now : Z) (last : option Z) : option Q :=
  match last with
  | Some t => Some (inject_Z (now - t) / inject_Z unit)%Q
  | None => None
  end.

(** [x < n] and [x > n] on numbers; any comparison with NaN is false. *)
Definition num_lt (x : option Q) (n : Z) : bool :=
  match x with
  | Some q => negb (Qle_bool (inject_Z n) q)
  | None => false
  end.

Definition num_gt (x : option Q) (n : Z) : bool :=
  match x with
  | Some q => negb (Qle_bool q (inject_Z n))
  | None => false
  end.

Definition MS_PER_HOUR : Z := 1000 * 60 * 60.
Definition MS_PER_DAY : Z := 1000 * 60 * 60 * 24.

End Js.

(** ** Data model *)

Record Track := { track_id : string; track_name : string }.

(** What [getArtistAllTracks] resolves to: an object with a [tracks] field. *)
Record TracksData := { tracks : option (list Track) }.

(** One record type stands for every shape of artist object in the code
    (the caller's object, the selected columns of the existing row, the
    prepared [artistData], a row returned by the store): an absent, [null]
    or [undefined] field is [None]. *)
Record ArtistObj := {
  a_id : option string;
  a_name : option string;
  a_image : option string;
  a_image_url : option string;
  a_genres : option (list string);        (* [None]: not an array *)
  a_popularity : option Z;
  a_upcomingShows : option Z;
  a_upcoming_shows : option Z;
  a_spotify_id : option string;
  a_stored_tracks : option (list Track);
  a_updated_at : Js.Timestamp
}.

Record ShowObj := {
  s_id : option string;
  s_name : option string;
  s_artist_id : option string;
  s_venue_id : option string;
  s_date : Js.Timestamp;
  s_image_url : option string;
  s_imageUrl : option string;
  s_image : option string;
  s_ticket_url : option string;
  s_ticketUrl : option string;
  s_genre_ids : option (list string);     (* [None]: not an array *)
  s_updated_at : Js.Timestamp
}.

(** A PostgREST error object. *)
Record StoreError := { code : string; message : string }.

(** The [{ data, error }] object a store query resolves to. *)
Record Response (A : Type) := { data : A; error : option StoreError }.
Arguments data {A} _.
Arguments error {A} _.

(** A thrown value; the code never inspects it. *)
Definition Exn := string.

(** How a call ends. *)
Inductive Completion (A : Type) :=
| Normal (a : A)
| Throw (e : Exn).
Arguments Normal {A} a.
Arguments Throw {A} e.

(** The object passed to [supabase.from('artists').update(...)]. *)
Record TracksPatch := {
  p_tracks_last_updated : Z;
  p_updated_at : Z;
  p_stored_tracks : list Track
}.

(** The calls a computation makes, each with the way it ended.
    [console.error] is recorded; [console.log] is not modelled. *)
Inductive Event :=
| ArtistsSelect (id : string) (r : Completion (Response (option ArtistObj)))
| ArtistsUpsert (d : ArtistObj) (r : Completion (Response (option (list ArtistObj))))
| ArtistsInsert (d : ArtistObj) (r : Completion (Response (option (list ArtistObj))))
| ArtistsUpdate (id : string) (p : TracksPatch) (r : Completion unit)
| GetStoredTracksForArtist (id : string) (r : Completion (option (list Track)))
| UpdateArtistStoredTracks (id : string) (ts : list Track) (r : Completion unit)
| GetArtistAllTracks (spotifyId : string) (r : Completion (option TracksData))
| ShowsSelect (id : string) (r : Completion (Response (option ShowObj)))
| ShowsUpsert (d : ShowObj) (r : Completion (Response (option (list ShowObj))))
| ShowsInsert (d : ShowObj) (r : Completion (Response (option (list ShowObj))))
| ConsoleError (msg : string).

(** A promise started and not awaited, with the handler of its [.catch]. *)
Inductive Task :=
| FetchAndStoreArtistTracks (artistId spotifyId : string) (artistName : option string).

(** A store write. *)
Definition is_write (e : Event) : bool :=
  match e with
  | ArtistsUpsert _ _ | ArtistsInsert _ _ | ArtistsUpdate _ _ _
  | UpdateArtistStoredTracks _ _ _ | ShowsUpsert _ _ | ShowsInsert _ _ => true
  | _ => false
  end.

(** A call to the external catalogue. *)
Definition is_catalog_fetch (e : Event) : bool :=
  match e with
  | GetArtistAllTracks _ _ => true
  | _ => false
  end.

Definition is_insert (e : Event) : bool :=
  match e with
  | ArtistsInsert _ _ | ShowsInsert _ _ => true
  | _ => false
  end.

Definition is_upsert (e : Event) : bool :=
  match e with
  | ArtistsUpsert _ _ | ShowsUpsert _ _ => true
  | _ => false
  end.

(** ** Computations *)

Module Effects.

(** The world a computation runs in: the state of everything outside the
    program, the calls made so far (oldest first) and the promises started
    but not awaited. *)
Record World (St : Type) := {
  store : St;
  events : list Event;
  pending : list Task
}.
Arguments store {St} _.
Arguments events {St} _.
Arguments pending {St} _.

Definition init {St} (st : St) : World St :=
  {| store := st; events := []; pending := [] |}.

Definition M (St A : Type) : Type := World St -> Completion A * World St.

Definition ret {St A} (a : A) : M St A := fun w => (Normal a, w).

Definition bind {St A B} (m : M St A) (k : A -> M St B) : M St B :=
  fun w =>
    match m w with
    | (Normal a, w') => k a w'
    | (Throw e, w') => (Throw e, w')
    end.

(** [throw e]. *)
Definition throw {St A} (e : Exn) : M St A := fun w => (Throw e, w).

(** [try { m } catch (e) { h e }]: effects made before the throw stay. *)
Definition try_catch {St A} (m : M St A) (h : Exn -> M St A) : M St A :=
  fun w =>
    match m w with
    | (Normal a, w') => (Normal a, w')
    | (Throw e, w') => h e w'
    end.

(** An awaited call to the outside: it changes the backend state, ends
    normally or throws, and is recorded in the trace. *)
Definition call {St A} (h : St -> Completion A * St)
    (ev : Completion A -> Event) : M St A :=
  fun w =>
    let (r, st') := h (store w) in
    (r, {| store := st'; events := events w ++ [ev r]; pending := pending w |}).

(** [console.error(msg, ...)]. *)
Definition console_error {St} (msg : string) : M St unit :=
  fun w =>
    (Normal tt, {| store := store w; events := events w ++ [ConsoleError msg];
                   pending := pending w |}).

(** [new Date().getTime()]: reading the clock may advance it. *)
Definition new_date {St} (clock : St -> Z * St) : M St Z :=
  fun w =>
    let (t, st') := clock (store w) in
    (Normal t, {| store := st'; events := events w; pending := pending w |}).

(** Starting a promise without awaiting it: it is queued, and the calls it
    awaits are answered after the caller has returned. *)
Definition spawn {St} (t : Task) : M St unit :=
  fun w =>
    (Normal tt, {| store := store w; events := events w;
                   pending := pending w ++ [t] |}).

(** The two ways a block of statements ends when it does not throw. *)
Inductive Flow (R : Type) :=
| Return (r : R)      (* a [return r] statement was executed *)
| Continue.           (* control fell through to the next statement *)
Arguments Return {R} r.
Arguments Continue {R}.

Declare Scope js_scope.
Delimit Scope js_scope with js.
Notation "x <- m ;; k" := (bind m (fun x => k))
  (at level 100, m at next level, right associativity) : js_scope.
Notation "m ;; k" := (bind m (fun _ => k))
  (at level 100, right associativity) : js_scope.

(** Everything outside the program.  Each operation takes the backend
    state and returns how the call ended and the new state. *)
Record Backend (St : Type) := {
  clock : St -> Z * St;
  artists_select : string -> St -> Completion (Response (option ArtistObj)) * St;
  artists_upsert : ArtistObj -> St -> Completion (Response (option (list ArtistObj))) * St;
  artists_insert : ArtistObj -> St -> Completion (Response (option (list ArtistObj))) * St;
  artists_update : string -> TracksPatch -> St -> Completion unit * St;
  getStoredTracksForArtist : string -> St -> Completion (option (list Track)) * St;
  updateArtistStoredTracks : string -> list Track -> St -> Completion unit * St;
  getArtistAllTracks : string -> St -> Completion (option TracksData) * St;
  shows_select : string -> St -> Completion (Response (option ShowObj)) * St;
  shows_upsert : ShowObj -> St -> Completion (Response (option (list ShowObj))) * St;
  shows_insert : ShowObj -> St -> Completion (Response (option (list ShowObj))) * St
}.
Arguments clock {St} _.
Arguments artists_select {St} _.
Arguments artists_upsert {St} _.
Arguments artists_insert {St} _.
Arguments artists_update {St} _.
Arguments getStoredTracksForArtist {St} _.
Arguments updateArtistStoredTracks {St} _.
Arguments getArtistAllTracks {St} _.
Arguments shows_select {St} _.
Arguments shows_upsert {St} _.
Arguments shows_insert {St} _.

End Effects.

(** ** The artists database module *)

Module Artists.
Import Effects.
Local Open Scope js_scope.

Section WithBackend.
Context {St : Type} (be : Backend St).

(** [!tracksData || !tracksData.tracks || tracksData.tracks.length === 0] *)
Definition no_tracks (tracksData : option TracksData) : bool :=
  match tracksData with
  | None => true
  | Some td =>
      match tracks td with
      | None => true
      | Some l => (length l =? 0)%nat
      end
  end.

(** [tracksData.tracks], read after the test above has failed. *)
Definition tracks_of (tracksData : option TracksData) : list Track :=
  match tracksData with
  | Some {| tracks := Some l |} => l
  | _ => []
  end.

(** [existingTracks && existingTracks.length > 0] *)
Definition have_tracks (existingTracks : option (list Track)) : bool :=
  match existingTracks with
  | Some l => (0 <? length l)%nat
  | None => false
  end.

(** The inner [try] block of [fetchAndStoreArtistTracks]: the two store
    writes.  The answer of [update] is not inspected.  [tracksAsJson] is
    the JSON round trip of the tracks, the identity on this data. *)
Definition store_tracks (artistId : string) (fetched : list Track)
    : M St (option (list Track)) :=
  let tracksAsJson := fetched in
  try_catch
    (call (updateArtistStoredTracks be artistId tracksAsJson)
          (UpdateArtistStoredTracks artistId tracksAsJson);;
     t1 <- new_date (clock be);;
     t2 <- new_date (clock be);;
     let patch := {| p_tracks_last_updated := t1; p_updated_at := t2;
                     p_stored_tracks := tracksAsJson |} in
     call (artists_update be artistId patch) (ArtistsUpdate artistId patch);;
     ret (Some fetched))
    (fun dbError =>
       console_error "Database error storing tracks:";;
       ret (Some fetched)).

Definition fetchAndStoreArtistTracks (artistId spotifyId : string)
    (artistName : option string) : M St (option (list Track)) :=
  try_catch
    (existingTracks <- call (getStoredTracksForArtist be artistId)
                            (GetStoredTracksForArtist artistId);;
     if have_tracks existingTracks then ret existingTracks
     else
       tracksData <- call (getArtistAllTracks be spotifyId)
                          (GetArtistAllTracks spotifyId);;
       if no_tracks tracksData then ret None
       else store_tracks artistId (tracks_of tracksData))
    (fun err =>
       console_error "Error fetching and storing tracks for artist";;
       ret None).

(** A queued promise with its [.catch] handler. *)
Definition run_task (t : Task) : M St unit :=
  match t with
  | FetchAndStoreArtistTracks artistId spotifyId artistName =>
      try_catch
        (fetchAndStoreArtistTracks artistId spotifyId artistName;; ret tt)
        (fun err => console_error "Error fetching tracks:")
  end.

Fixpoint run_tasks (ts : list Task) : M St unit :=
  match ts with
  | [] => ret tt
  | t :: ts' => run_task t;; run_tasks ts'
  end.

(** The event loop after the caller has got its result: the queued
    promises run to completion. *)
Definition drain : M St unit :=
  fun w =>
    run_tasks (pending w)
      {| store := store w; events := events w; pending := [] |}.

(** [needsUpdate] *)
Definition needsUpdate (artist existingArtist : ArtistObj) (now : Z) : bool :=
  let daysSinceUpdate :=
    Js.elapsed Js.MS_PER_DAY now
      (Js.getTime_or_epoch (a_updated_at existingArtist)) in
  Js.num_gt daysSinceUpdate 7
  || negb (Js.truthy_obj (a_stored_tracks existingArtist))
  || (Js.truthy_str (a_spotify_id artist)
      && negb (Js.truthy_str (a_spotify_id existingArtist)))
  || match a_upcoming_shows artist with
     | Some n =>
         negb (n =? 0)
         && (n >? match Js.or_num (a_upcoming_shows existingArtist) (Some 0) with
                  | Some m => m
                  | None => 0
                  end)
     | None => false
     end.

(** The last two disjuncts of [needsUpdate]: a Spotify id the row lacks, or
    more upcoming shows than the row has. *)
Definition offers_new_data (artist existingArtist : ArtistObj) : bool :=
  (Js.truthy_str (a_spotify_id artist)
   && negb (Js.truthy_str (a_spotify_id existingArtist)))
  || match a_upcoming_shows artist with
     | Some n =>
         negb (n =? 0)
         && (n >? match Js.or_num (a_upcoming_shows existingArtist) (Some 0) with
                  | Some m => m
                  | None => 0
                  end)
     | None => false
     end.

(** The first inner [try] block of [saveArtistToDatabase]. *)
Definition check_artist (artist : ArtistObj) (id : string)
    : M St (Flow (option ArtistObj)) :=
  try_catch
    (r <- call (artists_select be id) (ArtistsSelect id);;
     (if Js.truthy_obj (error r)
      then console_error "Error checking artist in database:"
      else ret tt);;
     match data r with
     | Some existingArtist =>
         now <- new_date (clock be);;
         if negb (needsUpdate artist existingArtist now)
         then ret (Return (Some existingArtist))
         else ret Continue
     | None => ret Continue
     end)
    (fun checkError =>
       console_error "Error checking if artist exists:";;
       ret Continue).

(** [artistData] *)
Definition prepare_artist (artist : ArtistObj) (now : Z) : ArtistObj :=
  {| a_id := a_id artist;
     a_name := a_name artist;
     a_image := None;
     a_image_url := Js.or_str (a_image artist) (a_image_url artist);
     a_genres := Some (match a_genres artist with Some g => g | None => [] end);
     a_popularity := Js.or_num (a_popularity artist) (Some 0);
     a_upcomingShows := None;
     a_upcoming_shows :=
       Js.or_num (Js.or_num (a_upcomingShows artist) (a_upcoming_shows artist))
                 (Some 0);
     a_spotify_id := Js.or_str (a_spotify_id artist) None;
     a_stored_tracks :=
       if Js.truthy_obj (a_stored_tracks artist)
       then a_stored_tracks artist else None;
     a_updated_at := Js.TsAt now |}.

(** [error.code === '42501' || error.message.includes('permission denied')] *)
Definition is_permission_error (e : StoreError) : bool :=
  String.eqb (code e) "42501" || Js.includes "permission denied" (message e).

(** The second inner [try] block of [saveArtistToDatabase]. *)
Definition write_artist (artist artistData : ArtistObj) (id : string)
    : M St (option ArtistObj) :=
  try_catch
    (r <- call (artists_upsert be artistData) (ArtistsUpsert artistData);;
     match error r with
     | Some err =>
         console_error "Error saving artist to database:";;
         if is_permission_error err then
           ri <- call (artists_insert be artistData) (ArtistsInsert artistData);;
           match error ri with
           | Some insertError =>
               console_error "Insert-only approach also failed:";;
               ret (Some artistData)
           | None => ret (Some (Js.first_or (data ri) artistData))
           end
         else ret (Some artistData)
     | None =>
         let savedArtist := Js.first_or (data r) artistData in
         match a_spotify_id artistData with
         | Some spotify_id =>
             if negb (Js.truthy_obj (a_stored_tracks savedArtist))
                && Js.truthy_str (Some spotify_id)
             then spawn (FetchAndStoreArtistTracks id spotify_id (a_name artist))
             else ret tt
         | None => ret tt
         end;;
         ret (Some savedArtist)
     end)
    (fun saveError =>
       console_error "Error in saveArtistToDatabase:";;
       ret (Some artistData)).

Definition saveArtistToDatabase (artist : option ArtistObj)
    : M St (option ArtistObj) :=
  try_catch
    (match artist with
     | None => console_error "Invalid artist object:";; ret None
     | Some a =>
         match a_id a with
         | Some id =>
             if negb (String.eqb id "") then
               flow <- check_artist a id;;
               match flow with
               | Return r => ret r
               | Continue =>
                   now <- new_date (clock be);;
                   let artistData := prepare_artist a now in
                   write_artist a artistData id
               end
             else console_error "Invalid artist object:";; ret None
         | None => console_error "Invalid artist object:";; ret None
         end
     end)
    (fun err =>
       console_error "Error in saveArtistToDatabase:";;
       ret artist).

(** A caller that awaits [saveArtistToDatabase] and then yields to the
    event loop, which runs the promises started meanwhile. *)
Definition saveArtistToDatabase_then_idle (artist : option ArtistObj)
    : M St (option ArtistObj) :=
  v <- saveArtistToDatabase artist;;
  drain;;
  ret v.

End WithBackend.

(** Where a value returned by [saveArtistToDatabase] comes from, given the
    caller's object and the trace of the call. *)
Definition artist_result_source (artist : option ArtistObj)
    (trace : list Event) (v : option ArtistObj) : Prop :=
  (* [null], for an object without id *)
  (v = None ∧ Js.truthy_str (artist ≫= a_id) = false)
  (* the existing row *)
  ∨ (∃ id r existing,
       ArtistsSelect id (Normal r) ∈ trace ∧ data r = Some existing
       ∧ v = Some existing)
  (* the row persisted by the upsert or by the insert *)
  ∨ (∃ d r row,
       (ArtistsUpsert d (Normal r) ∈ trace ∨ ArtistsInsert d (Normal r) ∈ trace)
       ∧ error r = None ∧ Js.first (data r) = Some row ∧ v = Some row)
  (* the prepared record, after an attempt to write it *)
  ∨ (∃ d r, ArtistsUpsert d r ∈ trace ∧ v = Some d)
  (* the caller's object *)
  ∨ (v = artist ∧ ∃ a, artist = Some a).

End Artists.

(** ** src/lib/api/database/shows.ts *)

Module Shows.
Import Effects.
Local Open Scope js_scope.

Section WithBackend.
Context {St : Type} (be : Backend St).

(** [hoursSinceUpdate < 24] *)
Definition updated_recently (dbShow : ShowObj) (now : Z) : bool :=
  let hoursSinceUpdate :=
    Js.elapsed Js.MS_PER_HOUR now
      (Js.getTime_or_epoch (s_updated_at dbShow)) in
  Js.num_lt hoursSinceUpdate 24.

(** The first inner [try] block of [saveShowToDatabase]. *)
Definition check_show (show : ShowObj) (id : string)
    : M St (Flow (option ShowObj)) :=
  try_catch
    (r <- call (shows_select be id) (ShowsSelect id);;
     match error r with
     | Some checkError =>
         if String.eqb (code checkError) "42501"
         then ret tt
         else console_error "Error checking show in database:"
     | None => ret tt
     end;;
     match data r with
     | Some dbShow =>
         now <- new_date (clock be);;
         if updated_recently dbShow now
         then ret (Return (Some dbShow))
         else ret Continue
     | None => ret Continue
     end)
    (fun checkError =>
       console_error "Error checking if show exists:";;
       ret Continue).

(** [show.date && new Date(show.date).toISOString()]: [toISOString]
    throws a RangeError on an invalid date. *)
Definition date_to_iso (date : Js.Timestamp) : M St Js.Timestamp :=
  match date with
  | Js.TsMissing => ret Js.TsMissing
  | Js.TsAt ms => ret (Js.TsAt ms)
  | Js.TsGarbage => throw "RangeError: Invalid time value"
  end.

(** [showData]; the fields are evaluated in the order written. *)
Definition prepare_show (show : ShowObj) : M St ShowObj :=
  date <- date_to_iso (s_date show);;
  now <- new_date (clock be);;
  ret {| s_id := s_id show;
         s_name := s_name show;
         s_artist_id := s_artist_id show;
         s_venue_id := s_venue_id show;
         s_date := date;
         s_image_url :=
           Js.or_str (Js.or_str (s_image_url show) (s_imageUrl show))
                     (s_image show);
         s_imageUrl := None;
         s_image := None;
         s_ticket_url := Js.or_str (s_ticket_url show) (s_ticketUrl show);
         s_ticketUrl := None;
         s_genre_ids :=
           Some (match s_genre_ids show with Some g => g | None => [] end);
         s_updated_at := Js.TsAt now |}.

(** The second inner [try] block of [saveShowToDatabase]. *)
Definition write_show (showData : ShowObj) : M St (option ShowObj) :=
  try_catch
    (r <- call (shows_upsert be showData) (ShowsUpsert showData);;
     match error r with
     | Some err =>
         (if String.eqb (code err) "42501"
          then ret tt
          else console_error "Error saving show to database:");;
         ri <- call (shows_insert be showData) (ShowsInsert showData);;
         match error ri with
         | Some insertError =>
             console_error "Insert-only approach for show also failed:";;
             ret (Some showData)
         | None => ret (Some (Js.first_or (data ri) showData))
         end
     | None => ret (Some (Js.first_or (data r) showData))
     end)
    (fun saveError =>
       console_error "Error in saveShowToDatabase:";;
       ret (Some showData)).

Definition saveShowToDatabase (show : option ShowObj)
    : M St (option ShowObj) :=
  try_catch
    (match show with
     | None => console_error "Invalid show object:";; ret None
     | Some s =>
         match s_id s with
         | Some id =>
             if negb (String.eqb id "") then
               flow <- check_show s id;;
               match flow with
               | Return r => ret r
               | Continue =>
                   showData <- prepare_show s;;
                   write_show showData
               end
             else console_error "Invalid show object:";; ret None
         | None => console_error "Invalid show object:";; ret None
         end
     end)
    (fun err =>
       console_error "Error in saveShowToDatabase:";;
       ret show).

End WithBackend.

(** Where a value returned by [saveShowToDatabase] comes from. *)
Definition show_result_source (show : option ShowObj)
    (trace : list Event) (v : option ShowObj) : Prop :=
  (v = None ∧ Js.truthy_str (show ≫= s_id) = false)
  ∨ (∃ id r existing,
       ShowsSelect id (Normal r) ∈ trace ∧ data r = Some existing
       ∧ v = Some existing)
  ∨ (∃ d r row,
       (ShowsUpsert d (Normal r) ∈ trace ∨ ShowsInsert d (Normal r) ∈ trace)
       ∧ error r = None ∧ Js.first (data r) = Some row ∧ v = Some row)
  ∨ (∃ d r, ShowsUpsert d r ∈ trace ∧ v = Some d)
  ∨ (v = show ∧ ∃ s, show = Some s).

End Shows.

(** ** src/hooks/use-show-detail.ts *)

Module ShowDetail.

(** An entry of the setlist; the hook reads its [id] only. *)
Record Song := { song_id : string; song_name : string; votes : Z }.

(** *** The [availableTracks] memo *)

(** [storedTracksData && Array.isArray(storedTracksData) &&
     storedTracksData.length > 0]; [None] is [null] or a value that is
    not an array. *)
Definition has_stored (storedTracksData : option (list Track)) : bool :=
  match storedTracksData with
  | Some l => (0 <? length l)%nat
  | None => false
  end.

(** [getAvailableTracks] comes from [useArtistTracks], which is outside
    this module: [None] is a value that is not a function. *)
Definition availableTracks
    (storedTracksData : option (list Track))
    (setlist : option (list Song))
    (getAvailableTracks : option (list Song -> list Track)) : list Track :=
  if has_stored storedTracksData then
    let setlistIds : gset string :=
      list_to_set (song_id <$> default [] setlist) in
    filter (fun track => track_id track ∉ setlistIds)
           (default [] storedTracksData)
  else
    match getAvailableTracks with
    | Some f => f (default [] setlist)
    | None => []
    end.

(** *** The [handleAddSongClick] callback *)

Section AddSong.
(** The state owned by [useSongManagement] and its [handleAddSong],
    which receives an object with a [tracks] field. *)
Context {S : Type} (handleAddSong : TracksData -> S -> S).

(** The callback returns the new state and the arguments of the calls to
    [handleAddSong] it made.  [all_tracks] is the [tracks] field of the
    [useArtistTracks] response, after its default [[]] for [undefined];
    [allTracksData] is the object [{ tracks }], hence always truthy. *)
Definition handleAddSongClick
    (storedTracksData : option (list Track))
    (all_tracks : option (list Track))
    (selectedTrack : option string)
    (trackId : option string) (s : S) : S * list TracksData :=
  let allTracksData := {| tracks := all_tracks |} in
  let trackToUse := Js.or_str trackId selectedTrack in
  if negb (Js.truthy_str trackToUse) then (s, [])
  else
    let by_all_tracks :=
      if Js.truthy_obj (tracks allTracksData)
      then (handleAddSong allTracksData s, [allTracksData])
      else (s, []) in
    if has_stored storedTracksData then
      let stored := default [] storedTracksData in
      match find (fun t => bool_decide (Some (track_id t) = trackToUse)) stored with
      | Some track =>
          let arg := {| tracks := Some stored |} in
          (handleAddSong arg s, [arg])
      | None => by_all_tracks
      end
    else by_all_tracks.
End AddSong.

(** *** The document-metadata effect *)

Record ArtistRef := { artist_name : option string }.
Record VenueRef := {
  venue_name : option string;
  venue_city : option string;
  venue_state : option string
}.
Record ShowView := {
  artist : option ArtistRef;
  venue : option VenueRef;
  date : option string
}.
Record Metadata := { title : string; description : string }.

(** [x || d] with [d] a string literal. *)
Definition str_or (x : option string) (d : string) : string :=
  match x with
  | Some s => if String.eqb s "" then d else s
  | None => d
  end.

Section Metadata.
(** [new Date(s).getTime()], [None] for NaN, and [toLocaleDateString]
    with the options of the code, which may throw. *)
Context (getTime : string -> option Z)
        (toLocaleDateString : Z -> Completion string).

(** The block that computes [formattedDate], with its [try]/[catch]. *)
Definition formattedDate (show : ShowView) : string :=
  let formattedDate := "TBD" in
  match date show with
  | Some d =>
      if String.eqb d "" then formattedDate
      else
        match getTime d with
        | Some t =>
            match toLocaleDateString t with
            | Normal s => s
            | Throw dateError => formattedDate
            end
        | None => formattedDate
        end
  | None => formattedDate
  end.

(** The body of the outer [try] block. *)
Definition derive_metadata (show : ShowView) : Completion Metadata :=
  let artistName := str_or (artist show ≫= artist_name) "Artist" in
  let venueName := str_or (venue show ≫= venue_name) "Venue" in
  let venueCity := str_or (venue show ≫= venue_city) "" in
  let venueState := str_or (venue show ≫= venue_state) "" in
  let venueLocation :=
    if negb (String.eqb venueCity "") && negb (String.eqb venueState "")
    then (venueCity ++ ", " ++ venueState)%string
    else str_or (Js.or_str (Some venueCity) (Some venueState)) "Location" in
  let formattedDate := formattedDate show in
  Normal
    {| title :=
         ("TheSet | " ++ artistName ++ " at " ++ venueName ++ " in "
            ++ venueLocation ++ " | " ++ formattedDate)%string;
       description :=
         ("Vote on " ++ artistName ++ "'s setlist for their show at "
            ++ venueName ++ " in " ++ venueLocation ++ " on "
            ++ formattedDate
            ++ ". Influence what songs they'll play live!")%string |}.

(** The effect: [None] when [setDocumentMetadata] is not called,
    otherwise the metadata it is called with. *)
Definition metadata_effect (show : option ShowView) (isLoadingShow : bool)
    : Completion (option Metadata) :=
  match show with
  | Some s =>
      if negb isLoadingShow then
        match derive_metadata s with
        | Normal m => Normal (Some m)
        | Throw error =>
            Normal (Some {| title := "Show Details | TheSet";
                            description :=
                              "Vote on setlists for upcoming concerts and shows on TheSet." |})
        end
      else Normal None
  | None => Normal None
  end.
End Metadata.

(** *** The spec's [computeAvailableTracks] *)

(** The ids of the setlist entries, as a list. *)
Definition setlist_ids (setlist : option (list Song)) : list string :=
  song_id <$> default [] setlist.

(** Following the spec's words: the stored tracks whose id is absent from
    the setlist, in the stored order. *)
Fixpoint complement (stored : list Track) (ids : list string) : list Track :=
  match stored with
  | [] => []
  | t :: rest =>
      if bool_decide (track_id t ∈ ids)
      then complement rest ids
      else t :: complement rest ids
  end.

(** What the memo returns when it has no stored tracks to filter. *)
Definition fallback_tracks (setlist : option (list Song))
    (getAvailableTracks : option (list Song -> list Track)) : list Track :=
  match getAvailableTracks with
  | Some f => f (default [] setlist)
  | None => []
  end.

End ShowDetail.

(** ** Sample inputs *)

Module Samples.
Import ShowDetail.

Definition track_a : Track := {| track_id := "t1"; track_name := "Intro" |}.
Definition track_b : Track := {| track_id := "t2"; track_name := "Encore" |}.

Definition song_b : Song := {| song_id := "t2"; song_name := "Encore"; votes := 3 |}.

(** A [getAvailableTracks] that offers a track of the catalogue fetched
    from Spotify although nothing is stored. *)
Definition from_catalog (setlist : list Song) : list Track := [track_a].

(** A show without a date. *)
Definition undated_show : ShowView :=
  {| artist := Some {| artist_name := Some "Phish" |};
     venue := Some {| venue_name := Some "The Sphere";
                      venue_city := Some "Las Vegas";
                      venue_state := None |};
     date := None |}.

(** A [handleAddSong] on a setlist that appends the first offered track. *)
Definition append_first (arg : TracksData) (setlist : list Song) : list Song :=
  match tracks arg with
  | Some (t :: _) =>
      setlist ++ [{| song_id := track_id t; song_name := track_name t; votes := 0 |}]
  | _ => setlist
  end.

(** A backend that answers every call with a fixed completion; its state is
    the clock, in milliseconds, which a reading advances by one. *)
Definition scripted
    (sel : Completion (Response (option ArtistObj)))
    (ups ins : Completion (Response (option (list ArtistObj))))
    (stored : Completion (option (list Track)))
    (catalog : Completion (option TracksData))
    (writes : Completion unit)
    (ssel : Completion (Response (option ShowObj)))
    (sups sins : Completion (Response (option (list ShowObj))))
    : Effects.Backend Z :=
  {| Effects.clock := fun t => (t, t + 1);
     Effects.artists_select := fun _ t => (sel, t);
     Effects.artists_upsert := fun _ t => (ups, t);
     Effects.artists_insert := fun _ t => (ins, t);
     Effects.artists_update := fun _ _ t => (writes, t);
     Effects.getStoredTracksForArtist := fun _ t => (stored, t);
     Effects.updateArtistStoredTracks := fun _ _ t => (writes, t);
     Effects.getArtistAllTracks := fun _ t => (catalog, t);
     Effects.shows_select := fun _ t => (ssel, t);
     Effects.shows_upsert := fun _ t => (sups, t);
     Effects.shows_insert := fun _ t => (sins, t) |}.

Definition answer {A} (d : A) : Completion (Response A) :=
  Normal {| data := d; error := None |}.

Definition refuse {A} (d : A) (c m : string) : Completion (Response A) :=
  Normal {| data := d; error := Some {| code := c; message := m |} |}.

Definition mk_artist (id : string) (spotify : option string)
    (stored : option (list Track)) (upcoming : option Z)
    (updated : Js.Timestamp) : ArtistObj :=
  {| a_id := Some id; a_name := Some "Phish"; a_image := None;
     a_image_url := None; a_genres := Some ["rock"]; a_popularity := Some 70;
     a_upcomingShows := None; a_upcoming_shows := upcoming;
     a_spotify_id := spotify; a_stored_tracks := stored;
     a_updated_at := updated |}.

Definition mk_show (id : string) (date updated : Js.Timestamp) : ShowObj :=
  {| s_id := Some id; s_name := Some "Phish at The Sphere";
     s_artist_id := Some "A"; s_venue_id := Some "V"; s_date := date;
     s_image_url := None; s_imageUrl := None; s_image := None;
     s_ticket_url := None; s_ticketUrl := None; s_genre_ids := None;
     s_updated_at := updated |}.

(** One day, in milliseconds, and an instant at which the requests below
    are made. *)
Definition day : Z := 86400000.
Definition request_time : Z := 20000 * day.

(** Artist "A" as the caller has it: catalogue id "X123", no tracks. *)
Definition artist_A : ArtistObj :=
  mk_artist "A" (Some "X123") None None Js.TsMissing.

(** Its stored row, updated ten days before, without tracks. *)
Definition stale_row_A : ArtistObj :=
  mk_artist "A" (Some "X123") None None (Js.TsAt (request_time - 10 * day)).

(** Its stored row, updated one day before, with tracks. *)
Definition fresh_row_A : ArtistObj :=
  mk_artist "A" (Some "X123") (Some [track_a]) None
    (Js.TsAt (request_time - day)).

(** Its stored row, updated one day before, without tracks. *)
Definition bare_row_A : ArtistObj :=
  mk_artist "A" (Some "X123") None None (Js.TsAt (request_time - day)).

(** The row the store returns after a write made at [request_time + 1]. *)
Definition written_row_A : ArtistObj :=
  mk_artist "A" (Some "X123") None (Some 0) (Js.TsAt (request_time + 1)).

Definition show_S : ShowObj := mk_show "S" (Js.TsAt (request_time + 30 * day)) Js.TsMissing.

(** Its stored row, updated one hour before. *)
Definition fresh_row_S : ShowObj :=
  mk_show "S" (Js.TsAt (request_time + 30 * day))
    (Js.TsAt (request_time - 3600000)).

(** The record [saveShowToDatabase] prepares for [show_S] at
    [request_time]. *)
Definition prepared_S : ShowObj :=
  {| s_id := Some "S"; s_name := Some "Phish at The Sphere";
     s_artist_id := Some "A"; s_venue_id := Some "V";
     s_date := Js.TsAt (request_time + 30 * day);
     s_image_url := None; s_imageUrl := None; s_image := None;
     s_ticket_url := None; s_ticketUrl := None; s_genre_ids := Some [];
     s_updated_at := Js.TsAt request_time |}.

(** The row for show "S" that an insert returns, stamped by the store. *)
Definition inserted_row_S : ShowObj :=
  mk_show "S" (Js.TsAt (request_time + 30 * day)) (Js.TsAt (request_time + 2)).

Definition down {A} : Completion A := Throw "fetch failed".

End Samples.

(** ** Point lookups: [getArtistById] and [getShowFromDatabase] *)

Module Lookups.
Import Effects.
Local Open Scope js_scope.

(** An awaited query whose answer is all the caller looks at.  The trace
    keeps the calls of the synchroniser; of a lookup it keeps what the
    function logs. *)
Definition await {St A} (h : St -> Completion A * St) : M St A :=
  fun w =>
    let (r, st') := h (store w) in
    (r, {| store := st'; events := events w; pending := pending w |}).

(** A venue row, joined to a show under [venue]. *)
Record VenueRow := {
  v_id : option string;
  v_name : option string;
  v_city : option string;
  v_state : option string
}.

(** A show row with the rows its [artist_id] and [venue_id] refer to, as
    selected by [getShowFromDatabase]. *)
Record JoinedShow := {
  j_show : ShowObj;
  j_artist : option ArtistObj;
  j_venue : option VenueRow
}.

Section WithQueries.
(** [from('artists').select('*').eq('id', id).maybeSingle()] and the joined
    select on [shows]. *)
Context {St : Type}
        (select_artist : string -> St -> Completion (Response (option ArtistObj)) * St)
        (select_show : string -> St -> Completion (Response (option JoinedShow)) * St).

Definition getArtistById (artistId : string) : M St (option ArtistObj) :=
  try_catch
    (r <- await (select_artist artistId);;
     if Js.truthy_obj (error r) then
       console_error "Error fetching artist from database:";;
       ret None
     else ret (data r))
    (fun err =>
       console_error "Error in getArtistById:";;
       ret None).

Definition getShowFromDatabase (showId : string) : M St (option JoinedShow) :=
  try_catch
    (r <- await (select_show showId);;
     if Js.truthy_obj (error r) then
       console_error "Error fetching show from database:";;
       ret None
     else ret (data r))
    (fun err =>
       console_error "Error in getShowFromDatabase:";;
       ret None).

End WithQueries.

End Lookups.

(** ** More sample inputs *)

Module MoreSamples.
Import ShowDetail Samples.

Definition track_c : Track := {| track_id := "t3"; track_name := "Jam" |}.



Definition song_a : Song := {| song_id := "t1"; song_name := "Intro"; votes := 0 |}.

(** Artist "A" as stored one day before, with an [updated_at] that does not
    parse. *)
Definition odd_row_A : ArtistObj :=
  mk_artist "A" (Some "X123") (Some [track_a]) None Js.TsGarbage.

(** Artist "A" as stored eight days before, with tracks. *)
Definition old_row_A : ArtistObj :=
  mk_artist "A" (Some "X123") (Some [track_a]) None
    (Js.TsAt (request_time - 8 * day)).

(** An object without id. *)
Definition nameless_artist : ArtistObj :=
  {| a_id := None; a_name := Some "Phish"; a_image := None; a_image_url := None;
     a_genres := None; a_popularity := None; a_upcomingShows := None;
     a_upcoming_shows := None; a_spotify_id := None; a_stored_tracks := None;
     a_updated_at := Js.TsMissing |}.

(** An artist as a ticketing source delivers it. *)
Definition raw_artist : ArtistObj :=
  {| a_id := Some "B"; a_name := Some "Goose"; a_image := Some "g.png";
     a_image_url := Some "old.png"; a_genres := None; a_popularity := None;
     a_upcomingShows := Some 4; a_upcoming_shows := Some 2;
     a_spotify_id := Some ""; a_stored_tracks := None;
     a_updated_at := Js.TsMissing |}.

(** Show "S" with a date that does not parse. *)
Definition undatable_show : ShowObj := mk_show "S" Js.TsGarbage Js.TsMissing.

(** Show "S" with an empty id. *)
Definition anonymous_show : ShowObj :=
  {| s_id := Some ""; s_name := Some "?"; s_artist_id := None;
     s_venue_id := None; s_date := Js.TsMissing; s_image_url := None;
     s_imageUrl := None; s_image := None; s_ticket_url := None;
     s_ticketUrl := None; s_genre_ids := None; s_updated_at := Js.TsMissing |}.

(** The stored row of show "S", updated two days before. *)
Definition stale_row_S : ShowObj :=
  mk_show "S" (Js.TsAt (request_time + 30 * day))
    (Js.TsAt (request_time - 2 * day)).

Definition joined_S : Lookups.JoinedShow :=
  {| Lookups.j_show := fresh_row_S;
     Lookups.j_artist := Some fresh_row_A;
     Lookups.j_venue :=
       Some {| Lookups.v_id := Some "V"; Lookups.v_name := Some "The Sphere";
               Lookups.v_city := Some "Las Vegas"; Lookups.v_state := Some "NV" |} |}.

(** A show with a date and a venue in a city and a state. *)
Definition dated_show : ShowView :=
  {| artist := Some {| artist_name := Some "Phish" |};
     venue := Some {| venue_name := Some "The Sphere";
                      venue_city := Some "Las Vegas";
                      venue_state := Some "NV" |};
     date := Some "2025-04-18" |}.

End MoreSamples.

(** * Properties *)

(** ** Elapsed time *)

Module JsFacts.

Lemma quotient_le (x n : Z) (p : positive) :
  (inject_Z x / inject_Z (Z.pos p) <= inject_Z n)%Q ↔ x <= n * Z.pos p.
Proof. unfold Qle, Qdiv, Qmult, Qinv, inject_Z. cbn. lia. Qed.

Lemma le_quotient (x n : Z) (p : positive) :
  (inject_Z n <= inject_Z x / inject_Z (Z.pos p))%Q ↔ n * Z.pos p <= x.
Proof. unfold Qle, Qdiv, Qmult, Qinv, inject_Z. cbn. lia. Qed.

(** [daysSinceUpdate > n] compares milliseconds. *)
Lemma days_gt (now t n : Z) :
  Js.num_gt (Js.elapsed Js.MS_PER_DAY now (Some t)) n = true
  ↔ n * Js.MS_PER_DAY < now - t.
Proof.
  unfold Js.num_gt, Js.elapsed.
  rewrite negb_true_iff, <- not_true_iff_false, Qle_bool_iff.
  change Js.MS_PER_DAY with (Z.pos 86400000).
  rewrite quotient_le. lia.
Qed.

(** [hoursSinceUpdate < n] compares milliseconds. *)
Lemma hours_lt (now t n : Z) :
  Js.num_lt (Js.elapsed Js.MS_PER_HOUR now (Some t)) n = true
  ↔ now - t < n * Js.MS_PER_HOUR.
Proof.
  unfold Js.num_lt, Js.elapsed.
  rewrite negb_true_iff, <- not_true_iff_false, Qle_bool_iff.
  change Js.MS_PER_HOUR with (Z.pos 3600000).
  rewrite le_quotient. lia.
Qed.

End JsFacts.

(** ** The show-detail hook *)

Module ShowDetailFacts.
Import ShowDetail.

Lemma complement_filter stored ids :
  complement stored ids = filter (fun t => track_id t ∉ ids) stored.
Proof.
  induction stored as [|t rest IH]; [done|].
  cbn [complement]. rewrite filter_cons, IH.
  case_bool_decide; case_decide; done.
Qed.

Lemma complement_elem_of stored ids t :
  t ∈ complement stored ids ↔ t ∈ stored ∧ track_id t ∉ ids.
Proof.
  rewrite complement_filter, list_elem_of_filter. tauto.
Qed.

Lemma complement_sublist stored ids : complement stored ids `sublist_of` stored.
Proof. rewrite complement_filter. apply sublist_filter. Qed.

Lemma filter_by_set (stored : list Track) (ids : list string) :
  filter (fun t => track_id t ∉ (list_to_set ids : gset string)) stored
  = complement stored ids.
Proof.
  rewrite complement_filter. apply list_filter_iff.
  intros t. by rewrite elem_of_list_to_set.
Qed.

(** C2, as amended.  When the stored tracks are a non-empty list, the
    available tracks are exactly the stored tracks whose id does not occur
    among the ids of the setlist entries, in their stored order, for every
    setlist (empty and absent included): the result is the complement
    written after the spec, it is a subsequence of the stored list and it
    has the stated members.  When the stored list is empty or absent, the
    result is what the fallback [getAvailableTracks] returns. *)
Theorem availableTracks_complement
    (stored : list Track) (setlist : option (list Song))
    (getAvailableTracks : option (list Song -> list Track)) :
  (stored ≠ [] →
     availableTracks (Some stored) setlist getAvailableTracks
       = complement stored (setlist_ids setlist)
     ∧ availableTracks (Some stored) setlist getAvailableTracks
         `sublist_of` stored
     ∧ ∀ t, t ∈ availableTracks (Some stored) setlist getAvailableTracks
            ↔ t ∈ stored ∧ track_id t ∉ setlist_ids setlist)
  ∧ availableTracks (Some []) setlist getAvailableTracks
      = fallback_tracks setlist getAvailableTracks
  ∧ availableTracks None setlist getAvailableTracks
      = fallback_tracks setlist getAvailableTracks.
Proof.
  split; [|done].
  intros Hne.
  assert (Heq : availableTracks (Some stored) setlist getAvailableTracks
                = complement stored (setlist_ids setlist)).
  { unfold availableTracks, has_stored.
    destruct stored as [|t rest]; [done|].
    cbn [length Nat.ltb Nat.leb default]. apply filter_by_set. }
  rewrite Heq. split; [done|]. split.
  - apply complement_sublist.
  - intros t. apply complement_elem_of.
Qed.

Lemma availableTracks_complement_witness :
  [Samples.track_a; Samples.track_b] ≠ []
  ∧ availableTracks (Some [Samples.track_a; Samples.track_b])
      (Some [Samples.song_b]) None
    = complement [Samples.track_a; Samples.track_b]
        (setlist_ids (Some [Samples.song_b])).
Proof.
  split; [done|].
  apply (availableTracks_complement [Samples.track_a; Samples.track_b]
           (Some [Samples.song_b]) None).
  done.
Defined.

(** C2 as stated fails on the empty stored list: the memo then hands the
    setlist to [getAvailableTracks], whose answer need not be empty. *)
Lemma availableTracks_empty_stored_counterexample :
  availableTracks (Some []) (Some []) (Some Samples.from_catalog)
  ≠ complement [] (setlist_ids (Some [])).
Proof. cbn. discriminate. Qed.

(** C9.  For a loaded show whose date is absent (or the empty string) the
    effect sets a title and a description in which the date is the
    literal "TBD", whatever the date functions do, and does not throw. *)
Theorem metadata_absent_date_TBD
    (getTime : string → option Z) (toLocaleDateString : Z → Completion string)
    (show : ShowView) :
  Js.truthy_str (date show) = false →
  formattedDate getTime toLocaleDateString show = "TBD"
  ∧ ∃ artistName venueName venueLocation,
      metadata_effect getTime toLocaleDateString (Some show) false
      = Normal (Some
          {| title :=
               ("TheSet | " ++ artistName ++ " at " ++ venueName ++ " in "
                  ++ venueLocation ++ " | " ++ "TBD")%string;
             description :=
               ("Vote on " ++ artistName ++ "'s setlist for their show at "
                  ++ venueName ++ " in " ++ venueLocation ++ " on " ++ "TBD"
                  ++ ". Influence what songs they'll play live!")%string |}).
Proof.
  intros Hdate.
  assert (Hfmt : formattedDate getTime toLocaleDateString show = "TBD").
  { unfold formattedDate. destruct (date show) as [d|]; [|done].
    cbn in Hdate. apply negb_false_iff in Hdate. by rewrite Hdate. }
  split; [done|].
  unfold metadata_effect, derive_metadata. cbn [negb]. rewrite Hfmt.
  eauto.
Qed.

Lemma metadata_absent_date_TBD_witness :
  Js.truthy_str (date Samples.undated_show) = false
  ∧ formattedDate (fun _ => Some 0) (fun _ => Throw "RangeError")
      Samples.undated_show = "TBD".
Proof.
  split; [reflexivity|].
  apply (metadata_absent_date_TBD (fun _ => Some 0) (fun _ => Throw "RangeError")
           Samples.undated_show).
  reflexivity.
Defined.

(** C10.  With no explicit track id and no selected track (each absent or
    the empty string) the add-song handler makes no call to
    [handleAddSong] and leaves the song-management state, hence the
    setlist, as it was. *)
Theorem handleAddSongClick_without_track_is_noop
    {S : Type} (handleAddSong : TracksData → S → S)
    (storedTracksData all_tracks : option (list Track))
    (selectedTrack trackId : option string) (s : S) :
  Js.truthy_str trackId = false →
  Js.truthy_str selectedTrack = false →
  handleAddSongClick handleAddSong storedTracksData all_tracks
    selectedTrack trackId s = (s, []).
Proof.
  intros Hid Hsel. unfold handleAddSongClick, Js.or_str.
  by rewrite Hid, Hsel.
Qed.

Lemma handleAddSongClick_without_track_is_noop_witness :
  Js.truthy_str None = false
  ∧ Js.truthy_str (Some "") = false
  ∧ handleAddSongClick Samples.append_first (Some [Samples.track_a])
      (Some [Samples.track_b]) (Some "") None [Samples.song_b]
    = ([Samples.song_b], []).
Proof.
  split; [reflexivity|]. split; [reflexivity|].
  apply (handleAddSongClick_without_track_is_noop Samples.append_first);
    reflexivity.
Defined.

End ShowDetailFacts.

(** ** Running computations *)

Module Run.
Import Effects.

(** Unfolds the operations of the monad. *)
Ltac unfold_ops :=
  unfold try_catch, bind, call, ret, throw, console_error, new_date, spawn in *;
  cbn [store events pending init fst snd] in *.

(** Case analysis on the next call to the backend: the innermost
    scrutinee that returns a completion and a state. *)
Ltac is_atomic c :=
  lazymatch c with
  | context [let (_, _) := _ in _] => fail
  | context [match _ with _ => _ end] => fail
  | _ => idtac
  end.

Ltac next_call :=
  match goal with
  | |- context [let (_, _) := ?c in _] =>
      is_atomic c;
      let r := fresh "r" in
      let st := fresh "st" in
      let E := fresh "E" in
      destruct c as [r st] eqn:E;
      lazymatch type of r with
      | Completion _ => destruct r
      | _ => idtac
      end;
      cbn [store events pending init fst snd app] in *
  end.

(** Case analysis on the next value the control flow depends on. *)
Ltac next_branch :=
  match goal with
  | |- context [match ?x with _ => _ end] =>
      is_atomic x;
      let E := fresh "E" in
      destruct x eqn:E;
      cbn [store events pending init fst snd app negb] in *
  end.

Ltac run_all := repeat first [next_call | next_branch].

(** An event of a given shape in a concrete trace. *)
Ltac find_event :=
  cbn [app];
  solve [repeat first [apply list_elem_of_here | apply list_elem_of_further]].

(** Membership in a concrete trace. *)
Ltac in_trace H :=
  cbn [app] in H;
  repeat (apply elem_of_cons in H as [H|H]; [try discriminate H|]);
  try (apply elem_of_nil in H; destruct H).

End Run.

(** ** The artists database module *)

Module ArtistsFacts.
Import Effects Artists Run.
Import Samples (down, answer, refuse).

Lemma have_tracks_nonempty (l : list Track) : l ≠ [] → have_tracks (Some l) = true.
Proof. by destruct l. Qed.

(** C3.  When the store already holds a non-empty track snapshot for the
    artist, [fetchAndStoreArtistTracks] returns that snapshot and its only
    call is the lookup of the snapshot: the external catalogue is not
    invoked.  Conversely a call to the external catalogue occurs only after
    the lookup has answered with no snapshot or an empty one. *)
Theorem fetchAndStoreArtistTracks_dedup_guard
    {St : Type} (be : Backend St) (st : St)
    (artistId spotifyId : string) (artistName : option string) :
  (∀ stored st',
     getStoredTracksForArtist be artistId st = (Normal (Some stored), st') →
     stored ≠ [] →
     fetchAndStoreArtistTracks be artistId spotifyId artistName (init st)
     = (Normal (Some stored),
        {| store := st';
           events := [GetStoredTracksForArtist artistId (Normal (Some stored))];
           pending := [] |}))
  ∧ (∀ e,
       e ∈ events (fetchAndStoreArtistTracks be artistId spotifyId artistName
                     (init st)).2 →
       is_catalog_fetch e = true →
       ∃ existing st',
         getStoredTracksForArtist be artistId st = (Normal existing, st')
         ∧ have_tracks existing = false).
Proof.
  split.
  - intros stored st' Hget Hne.
    unfold fetchAndStoreArtistTracks. unfold_ops. rewrite Hget.
    cbn [store events pending]. by rewrite have_tracks_nonempty.
  - intros e. unfold fetchAndStoreArtistTracks, store_tracks. unfold_ops.
    next_call.
    + destruct (have_tracks a) eqn:Hhave.
      * intros He Hf. in_trace He. by subst e.
      * intros _ _. eauto.
    + intros He Hf. in_trace He; by subst e.
Qed.

(** [fetchAndStoreArtistTracks] never throws, whatever the backend does. *)
Lemma fetchAndStoreArtistTracks_total
    {St : Type} (be : Backend St) (w : World St)
    (artistId spotifyId : string) (artistName : option string) :
  ∃ v w', fetchAndStoreArtistTracks be artistId spotifyId artistName w
          = (Normal v, w').
Proof.
  unfold fetchAndStoreArtistTracks, store_tracks. unfold_ops.
  next_call; [|eauto].
  destruct (have_tracks a); [eauto|].
  next_call; [|eauto].
  destruct (no_tracks a0); [eauto|].
  next_call; [|eauto].
  do 2 next_call. next_call; eauto.
Qed.

(** C6.  Whenever the external catalogue answers with no tracks (no object,
    no [tracks] field or an empty list), [fetchAndStoreArtistTracks] returns
    [null] and its trace contains no store write. *)
Theorem fetchAndStoreArtistTracks_no_tracks_no_write
    {St : Type} (be : Backend St) (st : St)
    (artistId spotifyId : string) (artistName : option string)
    (answer : option TracksData) :
  let run := fetchAndStoreArtistTracks be artistId spotifyId artistName (init st) in
  GetArtistAllTracks spotifyId (Normal answer) ∈ events run.2 →
  no_tracks answer = true →
  run.1 = Normal None ∧ ∀ e, e ∈ events run.2 → is_write e = false.
Proof.
  cbn zeta. unfold fetchAndStoreArtistTracks, store_tracks. unfold_ops.
  next_call.
  - destruct (have_tracks a).
    + intros He _. in_trace He.
    + next_call.
      * destruct (no_tracks a0) eqn:Hno.
        -- intros _ _. split; [done|].
           intros e He. in_trace He; by subst e.
        -- intros He Hanswer. exfalso.
           assert (a0 = answer) as ->; [|congruence].
           clear Hno Hanswer. revert He.
           next_call; [do 2 next_call; next_call|];
             intros He; in_trace He; congruence.
      * intros He _. in_trace He.
  - intros He _. in_trace He.
Qed.

(** C7.  Whenever the external catalogue answers with a non-empty list of
    tracks, [fetchAndStoreArtistTracks] returns these tracks, whether the
    store writes that follow succeed or throw. *)
Theorem fetchAndStoreArtistTracks_returns_fetched
    {St : Type} (be : Backend St) (st : St)
    (artistId spotifyId : string) (artistName : option string)
    (answer : option TracksData) :
  let run := fetchAndStoreArtistTracks be artistId spotifyId artistName (init st) in
  GetArtistAllTracks spotifyId (Normal answer) ∈ events run.2 →
  no_tracks answer = false →
  run.1 = Normal (Some (tracks_of answer)).
Proof.
  cbn zeta. unfold fetchAndStoreArtistTracks, store_tracks. unfold_ops.
  next_call.
  - destruct (have_tracks a).
    + intros He _. in_trace He.
    + next_call.
      * destruct (no_tracks a0) eqn:Hno.
        -- intros He Hanswer. in_trace He. congruence.
        -- next_call; [do 2 next_call; next_call|];
             intros He _; in_trace He; congruence.
      * intros He _. in_trace He.
  - intros He _. in_trace He.
Qed.

(** A store that holds a snapshot, with the catalogue unreachable. *)
Lemma fetchAndStoreArtistTracks_dedup_guard_witness :
  let be := Samples.scripted down down down (Normal (Some [Samples.track_a]))
              down down down down down in
  getStoredTracksForArtist be "A" 0 = (Normal (Some [Samples.track_a]), 0)
  ∧ [Samples.track_a] ≠ []
  ∧ fetchAndStoreArtistTracks be "A" "X123" None (init 0)
    = (Normal (Some [Samples.track_a]),
       {| store := 0;
          events := [GetStoredTracksForArtist "A" (Normal (Some [Samples.track_a]))];
          pending := [] |}).
Proof.
  intros be. split; [reflexivity|]. split; [done|].
  apply (proj1 (fetchAndStoreArtistTracks_dedup_guard be 0 "A" "X123" None));
    [reflexivity|done].
Defined.

(** Nothing stored and a catalogue that answers with an empty list. *)
Lemma fetchAndStoreArtistTracks_no_tracks_no_write_witness :
  let be := Samples.scripted down down down (Normal None)
              (Normal (Some {| tracks := Some [] |})) (Normal tt)
              down down down in
  let run := fetchAndStoreArtistTracks be "A" "X123" None (init 0) in
  GetArtistAllTracks "X123" (Normal (Some {| tracks := Some [] |})) ∈ events run.2
  ∧ no_tracks (Some {| tracks := Some [] |}) = true
  ∧ run.1 = Normal None
  ∧ ∀ e, e ∈ events run.2 → is_write e = false.
Proof.
  intros be run.
  assert (Hin : GetArtistAllTracks "X123" (Normal (Some {| tracks := Some [] |}))
                ∈ events run.2).
  { vm_compute. apply list_elem_of_further, list_elem_of_here. }
  split; [exact Hin|]. split; [reflexivity|].
  exact (fetchAndStoreArtistTracks_no_tracks_no_write be 0 "A" "X123" None
           (Some {| tracks := Some [] |}) Hin eq_refl).
Defined.

(** Nothing stored, a catalogue with two tracks and a store that rejects
    the write by throwing. *)
Lemma fetchAndStoreArtistTracks_returns_fetched_witness :
  let fetched := Some {| tracks := Some [Samples.track_a; Samples.track_b] |} in
  let be := Samples.scripted down down down (Normal None)
              (Normal fetched) (Throw "permission denied for table artists")
              down down down in
  let run := fetchAndStoreArtistTracks be "A" "X123" None (init 0) in
  GetArtistAllTracks "X123" (Normal fetched) ∈ events run.2
  ∧ no_tracks fetched = false
  ∧ UpdateArtistStoredTracks "A" [Samples.track_a; Samples.track_b]
      (Throw "permission denied for table artists") ∈ events run.2
  ∧ run.1 = Normal (Some [Samples.track_a; Samples.track_b]).
Proof.
  intros fetched be run.
  assert (Hin : GetArtistAllTracks "X123" (Normal fetched) ∈ events run.2).
  { vm_compute. apply list_elem_of_further, list_elem_of_here. }
  split; [exact Hin|]. split; [reflexivity|]. split.
  { vm_compute. do 2 apply list_elem_of_further. apply list_elem_of_here. }
  exact (fetchAndStoreArtistTracks_returns_fetched be 0 "A" "X123" None
           fetched Hin eq_refl).
Defined.

Ltac unfold_save :=
  unfold saveArtistToDatabase, check_artist, write_artist; unfold_ops.

(** Names the source of a returned artist in a concrete trace. *)
Ltac artist_source :=
  unfold artist_result_source, Js.first_or;
  repeat match goal with
         | |- context [match Js.first ?d with _ => _ end] =>
             let E := fresh "E" in destruct (Js.first d) eqn:E
         end;
  first
    [ solve [left; split; [reflexivity | cbn; congruence]]
    | solve [right; left; do 3 eexists;
             split; [find_event | split; [eassumption | reflexivity]]]
    | solve [do 2 right; left; do 3 eexists;
             split; [left; find_event
                    | split; [eassumption | split; [eassumption | reflexivity]]]]
    | solve [do 2 right; left; do 3 eexists;
             split; [right; find_event
                    | split; [eassumption | split; [eassumption | reflexivity]]]]
    | solve [do 3 right; left; do 2 eexists; split; [find_event | reflexivity]] ].

(** [saveArtistToDatabase] returns a value on every input and whatever the
    backend does, and the value is [null] (no id), the existing row, a
    persisted row, the prepared record or the caller's object. *)
Lemma saveArtistToDatabase_total
    {St : Type} (be : Backend St) (st : St) (artist : option ArtistObj) :
  ∃ v w', saveArtistToDatabase be artist (init st) = (Normal v, w')
          ∧ artist_result_source artist (events w') v.
Proof.
  unfold_save.
  destruct artist as [a|];
    [|do 2 eexists; split; [reflexivity|by left]].
  destruct (a_id a) as [id|] eqn:Hid.
  2:{ do 2 eexists; split; [reflexivity|].
      left. split; [done|]. cbn. by rewrite Hid. }
  destruct (String.eqb id "") eqn:Hempty; cbn [negb].
  { do 2 eexists; split; [reflexivity|].
    left. split; [done|]. cbn. rewrite Hid. cbn. by rewrite Hempty. }
  run_all.
  all: do 2 eexists; (split; [reflexivity|]); cbn [events].
  all: artist_source.
Qed.

Lemma needsUpdate_split (artist existing : ArtistObj) (now : Z) :
  needsUpdate artist existing now
  = Js.num_gt (Js.elapsed Js.MS_PER_DAY now
                 (Js.getTime_or_epoch (a_updated_at existing))) 7
    || negb (Js.truthy_obj (a_stored_tracks existing))
    || offers_new_data artist existing.
Proof. unfold needsUpdate, offers_new_data. by rewrite orb_assoc. Qed.

(** An existing artist row updated less than seven days ago that carries
    stored tracks, for a caller that offers no new data, is returned as it
    is: nothing is written and no task is started. *)
Lemma saveArtistToDatabase_fresh
    {St : Type} (be : Backend St) (st st1 st2 : St)
    (artist existing : ArtistObj) (id : string)
    (r : Response (option ArtistObj)) (now t : Z) :
  a_id artist = Some id → id ≠ "" →
  artists_select be id st = (Normal r, st1) →
  data r = Some existing →
  clock be st1 = (now, st2) →
  a_updated_at existing = Js.TsAt t →
  now - t < 7 * Js.MS_PER_DAY →
  is_Some (a_stored_tracks existing) →
  offers_new_data artist existing = false →
  ∃ w', saveArtistToDatabase be (Some artist) (init st)
        = (Normal (Some existing), w')
        ∧ (∀ e, e ∈ events w' → is_write e = false)
        ∧ pending w' = [].
Proof.
  intros Hid Hne Hsel Hdata Hclock Hat Hage [ts Hts] Hoffer.
  assert (Hfresh : needsUpdate artist existing now = false).
  { rewrite needsUpdate_split, Hoffer, Hts, Hat. cbn [Js.getTime_or_epoch].
    rewrite !orb_false_r. apply not_true_iff_false.
    rewrite JsFacts.days_gt. lia. }
  unfold_save. rewrite Hid.
  apply String.eqb_neq in Hne. rewrite Hne. cbn [negb store events pending init].
  rewrite Hsel. cbn [store events pending app].
  destruct (Js.truthy_obj (error r)); rewrite Hdata;
    cbn [store events pending app]; rewrite Hclock, Hfresh;
    cbn [negb store events pending app];
    eexists; (split; [reflexivity|]); (split; [|done]);
    intros e He; in_trace He; by subst e.
Qed.

(** An existing artist row without stored tracks is written again, whatever
    its age: the prepared record is handed to the upsert. *)
Lemma saveArtistToDatabase_refreshes_bare_row
    {St : Type} (be : Backend St) (st st1 : St)
    (artist existing : ArtistObj) (id : string)
    (r : Response (option ArtistObj)) :
  a_id artist = Some id → id ≠ "" →
  artists_select be id st = (Normal r, st1) →
  data r = Some existing →
  a_stored_tracks existing = None →
  ∃ now answer,
    ArtistsUpsert (prepare_artist artist now) answer
    ∈ events (saveArtistToDatabase be (Some artist) (init st)).2.
Proof.
  intros Hid Hne Hsel Hdata Hts.
  assert (Hstale : ∀ now, needsUpdate artist existing now = true).
  { intros now. rewrite needsUpdate_split, Hts. cbn [Js.truthy_obj negb].
    by rewrite orb_true_r. }
  unfold_save. rewrite Hid.
  apply String.eqb_neq in Hne. rewrite Hne. cbn [negb store events pending init].
  rewrite Hsel. cbn [store events pending app].
  destruct (Js.truthy_obj (error r)); rewrite Hdata;
    cbn [store events pending app];
    next_call; rewrite Hstale; cbn [negb store events pending app];
    next_call; next_call; do 2 eexists.
  all: run_all; find_event.
Qed.

(** The write protocol of [saveArtistToDatabase].  After the upsert of the
    prepared record [d]:
    - a permission error is followed by exactly one insert, of [d], and a
      failed insert gives [d] back;
    - any other error, or a throw, is followed by no insert and gives [d]
      back;
    - success is followed by no insert. *)
Lemma saveArtistToDatabase_write_protocol
    {St : Type} (be : Backend St) (st : St) (artist d : ArtistObj)
    (answer : Completion (Response (option (list ArtistObj)))) :
  let run := saveArtistToDatabase be (Some artist) (init st) in
  ArtistsUpsert d answer ∈ events run.2 →
  List.filter is_upsert (events run.2) = [ArtistsUpsert d answer]
  ∧ match answer with
    | Normal {| error := Some err |} =>
        if is_permission_error err then
          ∃ retry, List.filter is_insert (events run.2) = [ArtistsInsert d retry]
                   ∧ match retry with
                     | Normal {| error := None; data := rows |} =>
                         run.1 = Normal (Some (Js.first_or rows d))
                     | _ => run.1 = Normal (Some d)
                     end
        else List.filter is_insert (events run.2) = [] ∧ run.1 = Normal (Some d)
    | Normal {| error := None |} => List.filter is_insert (events run.2) = []
    | Throw _ => List.filter is_insert (events run.2) = [] ∧ run.1 = Normal (Some d)
    end.
Proof.
  cbn zeta.
  remember (saveArtistToDatabase be (Some artist) (init st)) as run eqn:Hrun.
  match goal with |- ?G => set (claim := G) end.
  revert Hrun. unfold_save.
  destruct (a_id artist) as [id|];
    [|intros ->; subst claim; intros He; in_trace He].
  destruct (String.eqb id ""); cbn [negb];
    [intros ->; subst claim; intros He; in_trace He|].
  run_all; intros ->; subst claim; cbn [fst snd events]; intros He; in_trace He.
  all: injection He as -> ->; cbn [List.filter is_upsert is_insert app].
  all: repeat match goal with
              | H : error ?r = _ |- _ => destruct r; cbn in H; subst
              end.
  all: try match goal with
           | H : is_permission_error _ = _ |- _ => rewrite H
           end.
  all: try (split; [reflexivity|]); try (eexists; split; [reflexivity|]);
    cbn [data]; auto.
Qed.

(** [fetchAndStoreArtistTracks] reads neither the trace nor the queue: run
    from any world, it does what it does from the initial world of the same
    backend state, after the events and tasks already there. *)
Lemma fetchAndStoreArtistTracks_frame
    {St : Type} (be : Backend St) (w : World St)
    (artistId spotifyId : string) (artistName : option string) :
  let run := fetchAndStoreArtistTracks be artistId spotifyId artistName
               (init (store w)) in
  fetchAndStoreArtistTracks be artistId spotifyId artistName w
  = (run.1, {| store := store run.2;
               events := events w ++ events run.2;
               pending := pending w ++ pending run.2 |}).
Proof.
  cbn zeta. destruct w as [st evs ts].
  unfold fetchAndStoreArtistTracks, store_tracks. unfold_ops.
  run_all; rewrite <- ?app_assoc, ?app_nil_r; reflexivity.
Qed.






End ArtistsFacts.

(** ** src/lib/api/database/shows.ts *)

Module ShowsFacts.
Import Effects Shows Run.
Import Samples (down, answer, refuse).

Ltac unfold_save :=
  unfold saveShowToDatabase, check_show, prepare_show, date_to_iso, write_show;
  unfold_ops.

(** Names the source of a returned show in a concrete trace. *)
Ltac show_source :=
  unfold show_result_source, Js.first_or;
  repeat match goal with
         | |- context [match Js.first ?d with _ => _ end] =>
             let E := fresh "E" in destruct (Js.first d) eqn:E
         end;
  first
    [ solve [right; left; do 3 eexists;
             split; [find_event | split; [eassumption | reflexivity]]]
    | solve [do 2 right; left; do 3 eexists;
             split; [left; find_event
                    | split; [eassumption | split; [eassumption | reflexivity]]]]
    | solve [do 2 right; left; do 3 eexists;
             split; [right; find_event
                    | split; [eassumption | split; [eassumption | reflexivity]]]]
    | solve [do 3 right; left; do 2 eexists; split; [find_event | reflexivity]]
    | solve [do 4 right; split; [reflexivity | eauto]] ].

(** [saveShowToDatabase] returns a value on every input and whatever the
    backend does, and the value is [null] (no id), the existing row, a
    persisted row, the prepared record or the caller's object. *)
Lemma saveShowToDatabase_total
    {St : Type} (be : Backend St) (st : St) (show : option ShowObj) :
  ∃ v w', saveShowToDatabase be show (init st) = (Normal v, w')
          ∧ show_result_source show (events w') v.
Proof.
  unfold_save.
  destruct show as [s|];
    [|do 2 eexists; split; [reflexivity|by left]].
  destruct (s_id s) as [id|] eqn:Hid.
  2:{ do 2 eexists; split; [reflexivity|].
      left. split; [done|]. cbn. by rewrite Hid. }
  destruct (String.eqb id "") eqn:Hempty; cbn [negb].
  { do 2 eexists; split; [reflexivity|].
    left. split; [done|]. cbn. rewrite Hid. cbn. by rewrite Hempty. }
  run_all.
  all: do 2 eexists; (split; [reflexivity|]); cbn [events].
  all: show_source.
Qed.

(** An existing show row updated less than 24 hours ago is returned as it
    is and nothing is written. *)
Lemma saveShowToDatabase_fresh
    {St : Type} (be : Backend St) (st st1 st2 : St)
    (show existing : ShowObj) (id : string)
    (r : Response (option ShowObj)) (now t : Z) :
  s_id show = Some id → id ≠ "" →
  shows_select be id st = (Normal r, st1) →
  data r = Some existing →
  clock be st1 = (now, st2) →
  s_updated_at existing = Js.TsAt t →
  now - t < 24 * Js.MS_PER_HOUR →
  ∃ w', saveShowToDatabase be (Some show) (init st)
        = (Normal (Some existing), w')
        ∧ (∀ e, e ∈ events w' → is_write e = false)
        ∧ pending w' = [].
Proof.
  intros Hid Hne Hsel Hdata Hclock Hat Hage.
  assert (Hfresh : updated_recently existing now = true).
  { unfold updated_recently. rewrite Hat. cbn [Js.getTime_or_epoch].
    by apply JsFacts.hours_lt. }
  unfold_save. rewrite Hid.
  apply String.eqb_neq in Hne. rewrite Hne. cbn [negb store events pending init].
  rewrite Hsel. cbn [store events pending app].
  destruct (error r) as [err|]; [destruct (String.eqb (code err) "42501")|];
    rewrite Hdata; cbn [store events pending app]; rewrite Hclock, Hfresh;
    cbn [store events pending app];
    eexists; (split; [reflexivity|]); (split; [|done]);
    intros e He; in_trace He; by subst e.
Qed.

(** Whatever error the upsert of a show answers with, permission error or
    not, [saveShowToDatabase] goes on to the insert. *)
Lemma saveShowToDatabase_retries_after_any_error
    {St : Type} (be : Backend St) (st : St) (show d : ShowObj)
    (r : Response (option (list ShowObj))) (err : StoreError) :
  let run := saveShowToDatabase be (Some show) (init st) in
  ShowsUpsert d (Normal r) ∈ events run.2 →
  error r = Some err →
  ∃ retry, ShowsInsert d retry ∈ events run.2.
Proof.
  cbn zeta.
  remember (saveShowToDatabase be (Some show) (init st)) as run eqn:Hrun.
  match goal with |- ?G => set (claim := G) end.
  revert Hrun. unfold_save.
  destruct (s_id show) as [id|];
    [|intros ->; subst claim; intros He; in_trace He].
  destruct (String.eqb id ""); cbn [negb];
    [intros ->; subst claim; intros He; in_trace He|].
  run_all; intros ->; subst claim; cbn [fst snd events];
    intros He Herr; in_trace He.
  all: injection He as -> ->; try congruence.
  all: eexists; find_event.
Qed.

End ShowsFacts.

(** ** The synchroniser: artists and shows together *)

Module SyncFacts.
Import Effects Run.
Import Samples.

(** C1, at a failing input.  The store holds no row for show "S", answers
    the upsert with a statement-timeout error, which is not a permission
    error, and accepts the insert.  [saveShowToDatabase] logs the error,
    goes on to the insert all the same and returns the inserted row, not
    the prepared record. *)
Theorem saveShowToDatabase_inserts_after_other_error :
  let be := scripted down down down down down down
              (answer None)
              (refuse None "57014" "canceling statement due to statement timeout")
              (answer (Some [inserted_row_S])) in
  Shows.saveShowToDatabase be (Some show_S) (init request_time)
  = (Normal (Some inserted_row_S),
     {| store := request_time + 1;
        events :=
          [ShowsSelect "S" (answer None);
           ShowsUpsert prepared_S
             (refuse None "57014"
                "canceling statement due to statement timeout");
           ConsoleError "Error saving show to database:";
           ShowsInsert prepared_S (answer (Some [inserted_row_S]))];
        pending := [] |})
  ∧ inserted_row_S ≠ prepared_S.
Proof.
  intros be. split; [vm_compute; reflexivity|]. vm_compute. discriminate.
Qed.

(** The artist path on the same answers: the error is logged, no insert is
    tried and the prepared record is returned. *)
Example saveArtistToDatabase_no_insert_after_other_error :
  let be := scripted (answer None)
              (refuse None "57014" "canceling statement due to statement timeout")
              (answer (Some [written_row_A])) down down down down down down in
  let artistData := Artists.prepare_artist artist_A request_time in
  Artists.saveArtistToDatabase be (Some artist_A) (init request_time)
  = (Normal (Some artistData),
     {| store := request_time + 1;
        events :=
          [ArtistsSelect "A" (answer None);
           ArtistsUpsert artistData
             (refuse None "57014"
                "canceling statement due to statement timeout");
           ConsoleError "Error saving artist to database:"];
        pending := [] |}).
Proof. vm_compute. reflexivity. Qed.

(** C4.  A show row updated less than 24 hours ago, and an artist row
    updated less than 7 days ago that carries stored tracks when the caller
    offers no new data, are returned as they are, with no write.  An artist
    row without stored tracks is written again whatever its age. *)
Theorem fresh_records_are_not_rewritten {St : Type} (be : Backend St) (st st1 : St) :
  (∀ (show existing : ShowObj) (id : string) (r : Response (option ShowObj))
     (now t : Z) (st2 : St),
     s_id show = Some id → id ≠ "" →
     shows_select be id st = (Normal r, st1) →
     data r = Some existing →
     clock be st1 = (now, st2) →
     s_updated_at existing = Js.TsAt t →
     now - t < 24 * Js.MS_PER_HOUR →
     ∃ w', Shows.saveShowToDatabase be (Some show) (init st)
           = (Normal (Some existing), w')
           ∧ (∀ e, e ∈ events w' → is_write e = false)
           ∧ pending w' = [])
  ∧ (∀ (artist existing : ArtistObj) (id : string)
       (r : Response (option ArtistObj)) (now t : Z) (st2 : St),
       a_id artist = Some id → id ≠ "" →
       artists_select be id st = (Normal r, st1) →
       data r = Some existing →
       clock be st1 = (now, st2) →
       a_updated_at existing = Js.TsAt t →
       now - t < 7 * Js.MS_PER_DAY →
       is_Some (a_stored_tracks existing) →
       Artists.offers_new_data artist existing = false →
       ∃ w', Artists.saveArtistToDatabase be (Some artist) (init st)
             = (Normal (Some existing), w')
             ∧ (∀ e, e ∈ events w' → is_write e = false)
             ∧ pending w' = [])
  ∧ (∀ (artist existing : ArtistObj) (id : string)
       (r : Response (option ArtistObj)),
       a_id artist = Some id → id ≠ "" →
       artists_select be id st = (Normal r, st1) →
       data r = Some existing →
       a_stored_tracks existing = None →
       ∃ now answer,
         ArtistsUpsert (Artists.prepare_artist artist now) answer
         ∈ events (Artists.saveArtistToDatabase be (Some artist) (init st)).2).
Proof.
  split; [|split].
  - intros show existing id r now t st2. apply ShowsFacts.saveShowToDatabase_fresh.
  - intros artist existing id r now t st2.
    apply ArtistsFacts.saveArtistToDatabase_fresh.
  - intros artist existing id r.
    apply ArtistsFacts.saveArtistToDatabase_refreshes_bare_row.
Qed.

(** C5.  On every input and whatever the store does (answers, error
    objects, throws), [saveArtistToDatabase] and [saveShowToDatabase] return
    a value and never throw; the value is the existing row, a persisted
    row, the prepared record or the caller's object, or [null] when the
    input has no id. *)
Theorem save_functions_never_throw {St : Type} (be : Backend St) (st : St) :
  (∀ artist,
     ∃ v w', Artists.saveArtistToDatabase be artist (init st) = (Normal v, w')
             ∧ Artists.artist_result_source artist (events w') v)
  ∧ (∀ show,
       ∃ v w', Shows.saveShowToDatabase be show (init st) = (Normal v, w')
               ∧ Shows.show_result_source show (events w') v).
Proof.
  split.
  - apply ArtistsFacts.saveArtistToDatabase_total.
  - apply ShowsFacts.saveShowToDatabase_total.
Qed.

(** A show row one hour old, an artist row one day old with tracks, and an
    artist row one day old without tracks. *)
Lemma fresh_records_are_not_rewritten_witness :
  let be := scripted (answer (Some fresh_row_A)) (answer None) down down down
              down (answer (Some fresh_row_S)) (answer None) down in
  let bare := scripted (answer (Some bare_row_A)) (answer None) down down down
                down down down down in
  (∃ w', Shows.saveShowToDatabase be (Some show_S) (init request_time)
         = (Normal (Some fresh_row_S), w')
         ∧ (∀ e, e ∈ events w' → is_write e = false) ∧ pending w' = [])
  ∧ (∃ w', Artists.saveArtistToDatabase be (Some artist_A) (init request_time)
           = (Normal (Some fresh_row_A), w')
           ∧ (∀ e, e ∈ events w' → is_write e = false) ∧ pending w' = [])
  ∧ (∃ now answer,
       ArtistsUpsert (Artists.prepare_artist artist_A now) answer
       ∈ events (Artists.saveArtistToDatabase bare (Some artist_A)
                   (init request_time)).2).
Proof.
  intros be bare. split; [|split].
  - apply (proj1 (fresh_records_are_not_rewritten be request_time request_time)
             show_S fresh_row_S "S" {| data := Some fresh_row_S; error := None |}
             request_time (request_time - 3600000) (request_time + 1));
      first [reflexivity | discriminate].
  - apply (proj1 (proj2 (fresh_records_are_not_rewritten be request_time
                           request_time))
             artist_A fresh_row_A "A"
             {| data := Some fresh_row_A; error := None |}
             request_time (request_time - day) (request_time + 1));
      first [reflexivity | discriminate | by eexists].
  - apply (proj2 (proj2 (fresh_records_are_not_rewritten bare request_time
                           request_time))
             artist_A bare_row_A "A"
             {| data := Some bare_row_A; error := None |});
      first [reflexivity | discriminate].
Defined.



End SyncFacts.

(** ** More on the show-detail hook *)

Module HookMore.
Import ShowDetail.

Lemma availableTracks_stored (stored : list Track) (setlist : option (list Song))
    (getAvailableTracks : option (list Song → list Track)) :
  stored ≠ [] →
  availableTracks (Some stored) setlist getAvailableTracks
  = filter (fun t => track_id t ∉ setlist_ids setlist) stored.
Proof.
  intros Hne. unfold availableTracks, has_stored.
  destruct stored as [|t rest]; [done|].
  cbn [length Nat.ltb Nat.leb default]. apply list_filter_iff.
  intros x. unfold setlist_ids. by rewrite elem_of_list_to_set.
Qed.

(** X1.  Adding a song at the head of the setlist removes from the
    available tracks exactly the tracks with that song's id and keeps the
    others in place. *)
Theorem availableTracks_after_adding_song
    (stored : list Track) (song : Song) (setlist : list Song)
    (getAvailableTracks : option (list Song → list Track)) :
  stored ≠ [] →
  availableTracks (Some stored) (Some (song :: setlist)) getAvailableTracks
  = filter (fun t => track_id t ≠ song_id song)
      (availableTracks (Some stored) (Some setlist) getAvailableTracks).
Proof.
  intros Hne. rewrite !availableTracks_stored by done.
  rewrite list_filter_filter. apply list_filter_iff.
  intros t.
  change (setlist_ids (Some (song :: setlist)))
    with (song_id song :: setlist_ids (Some setlist)).
  rewrite not_elem_of_cons. tauto.
Qed.

Lemma availableTracks_after_adding_song_witness :
  [Samples.track_a; Samples.track_b] ≠ []
  ∧ availableTracks (Some [Samples.track_a; Samples.track_b])
      (Some [Samples.song_b; MoreSamples.song_a]) None
    = filter (fun t => track_id t ≠ song_id Samples.song_b)
        (availableTracks (Some [Samples.track_a; Samples.track_b])
           (Some [MoreSamples.song_a]) None).
Proof.
  split; [done|].
  apply (availableTracks_after_adding_song [Samples.track_a; Samples.track_b]
           Samples.song_b [MoreSamples.song_a] None).
  done.
Defined.

(** X2.  With stored tracks, the available tracks depend on the setlist
    through the set of its song ids only (not on the order of the entries,
    on repeated entries or on their votes) and not at all on the fallback
    [getAvailableTracks]. *)
Theorem availableTracks_depends_on_id_set
    (stored : list Track) (setlist1 setlist2 : option (list Song))
    (fallback1 fallback2 : option (list Song → list Track)) :
  stored ≠ [] →
  (∀ id, id ∈ setlist_ids setlist1 ↔ id ∈ setlist_ids setlist2) →
  availableTracks (Some stored) setlist1 fallback1
  = availableTracks (Some stored) setlist2 fallback2.
Proof.
  intros Hne Hsame. rewrite !availableTracks_stored by done.
  apply list_filter_iff. intros t. by rewrite Hsame.
Qed.

Lemma availableTracks_depends_on_id_set_witness :
  let once := Some [Samples.song_b; MoreSamples.song_a] in
  let twice := Some [MoreSamples.song_a; Samples.song_b; MoreSamples.song_a] in
  [Samples.track_a; MoreSamples.track_c] ≠ []
  ∧ (∀ id, id ∈ setlist_ids once ↔ id ∈ setlist_ids twice)
  ∧ availableTracks (Some [Samples.track_a; MoreSamples.track_c]) once None
    = availableTracks (Some [Samples.track_a; MoreSamples.track_c]) twice
        (Some Samples.from_catalog).
Proof.
  intros once twice.
  assert (Hsame : ∀ id, id ∈ setlist_ids once ↔ id ∈ setlist_ids twice).
  { intros id.
    change (setlist_ids once) with ["t2"; "t1"].
    change (setlist_ids twice) with ["t1"; "t2"; "t1"].
    rewrite !elem_of_cons. tauto. }
  split; [done|]. split; [exact Hsame|].
  by apply (availableTracks_depends_on_id_set
              [Samples.track_a; MoreSamples.track_c] once twice).
Defined.

(** X3.  With stored tracks: an empty or absent setlist leaves every stored
    track available; a setlist that holds the id of every stored track
    leaves none; and there are never more available tracks than stored
    ones. *)
Theorem availableTracks_extremes
    (stored : list Track) (setlist : option (list Song))
    (getAvailableTracks : option (list Song → list Track)) :
  stored ≠ [] →
  availableTracks (Some stored) None getAvailableTracks = stored
  ∧ availableTracks (Some stored) (Some []) getAvailableTracks = stored
  ∧ ((∀ t, t ∈ stored → track_id t ∈ setlist_ids setlist) →
       availableTracks (Some stored) setlist getAvailableTracks = [])
  ∧ (length (availableTracks (Some stored) setlist getAvailableTracks)
       ≤ length stored)%nat.
Proof.
  intros Hne. rewrite !availableTracks_stored by done.
  assert (Hall : ∀ l : list Track,
            filter (fun t => track_id t ∉ @nil string) l = l).
  { intros l. induction l as [|t l IH]; [done|].
    rewrite filter_cons_True by apply not_elem_of_nil. by rewrite IH. }
  split; [apply Hall|]. split; [apply Hall|]. split.
  - intros Hin. induction stored as [|t rest IH]; [done|].
    rewrite filter_cons_False.
    + destruct rest as [|t' rest']; [done|].
      apply IH; [done|]. intros x Hx. apply Hin. by right.
    + intros Hnot. apply Hnot, Hin. by left.
  - apply length_filter.
Qed.

Lemma availableTracks_extremes_witness :
  [Samples.track_b] ≠ []
  ∧ availableTracks (Some [Samples.track_b]) None None = [Samples.track_b]
  ∧ availableTracks (Some [Samples.track_b]) (Some [Samples.song_b]) None = [].
Proof.
  split; [done|].
  destruct (availableTracks_extremes [Samples.track_b] (Some [Samples.song_b]) None)
    as (Hnone & _ & Hfull & _); [done|].
  split; [exact Hnone|].
  apply Hfull. intros t Ht. apply list_elem_of_singleton in Ht as ->.
  apply list_elem_of_here.
Defined.

Lemma truthy_nonempty (id : string) : id ≠ "" → Js.truthy_str (Some id) = true.
Proof. intros Hne. cbn. by apply String.eqb_neq in Hne as ->. Qed.

(** X4.  When the requested track (the explicit id, or else the selected
    track) is among the stored tracks, the add-song handler makes exactly
    one call to [handleAddSong], with the whole stored list. *)
Theorem handleAddSongClick_uses_stored_snapshot
    {S : Type} (handleAddSong : TracksData → S → S)
    (stored : list Track) (all_tracks : option (list Track))
    (selectedTrack trackId : option string) (id : string) (s : S) :
  Js.or_str trackId selectedTrack = Some id → id ≠ "" →
  (∃ t, t ∈ stored ∧ track_id t = id) →
  handleAddSongClick handleAddSong (Some stored) all_tracks selectedTrack trackId s
  = (handleAddSong {| tracks := Some stored |} s, [{| tracks := Some stored |}]).
Proof.
  intros Hid Hne (t & Ht & Htid).
  unfold handleAddSongClick. rewrite Hid, truthy_nonempty by done. cbn [negb].
  assert (has_stored (Some stored) = true) as -> by by destruct stored; inversion Ht.
  cbn [default].
  match goal with
  | |- context [find ?f ?l] => destruct (find f l) eqn:Hfind
  end; [done|].
  apply list_elem_of_In in Ht.
  apply (find_none _ stored Hfind t) in Ht as Hfalse.
  apply bool_decide_eq_false in Hfalse. by subst id.
Qed.

Lemma handleAddSongClick_uses_stored_snapshot_witness :
  let stored := [Samples.track_a; Samples.track_b] in
  Js.or_str (Some "t2") (Some "t1") = Some "t2" ∧ "t2" ≠ ""
  ∧ (∃ t, t ∈ stored ∧ track_id t = "t2")
  ∧ handleAddSongClick Samples.append_first (Some stored) None (Some "t1")
      (Some "t2") []
    = (Samples.append_first {| tracks := Some stored |} [],
       [{| tracks := Some stored |}]).
Proof.
  intros stored.
  assert (Hin : ∃ t, t ∈ stored ∧ track_id t = "t2").
  { exists Samples.track_b. split; [|done].
    apply list_elem_of_further, list_elem_of_here. }
  split; [reflexivity|]. split; [done|]. split; [exact Hin|].
  by apply (handleAddSongClick_uses_stored_snapshot Samples.append_first stored
              None (Some "t1") (Some "t2") "t2").
Defined.

(** X5.  When the requested track is not among the stored tracks (or
    nothing is stored), the handler hands the [tracks] of the artist-tracks
    response to [handleAddSong], once; when that field is [null] it does
    nothing. *)
Theorem handleAddSongClick_falls_back_to_all_tracks
    {S : Type} (handleAddSong : TracksData → S → S)
    (storedTracksData all_tracks : option (list Track))
    (selectedTrack trackId : option string) (id : string) (s : S) :
  Js.or_str trackId selectedTrack = Some id → id ≠ "" →
  (∀ t, t ∈ default [] storedTracksData → track_id t ≠ id) →
  handleAddSongClick handleAddSong storedTracksData all_tracks selectedTrack
    trackId s
  = match all_tracks with
    | Some l => (handleAddSong {| tracks := Some l |} s, [{| tracks := Some l |}])
    | None => (s, [])
    end.
Proof.
  intros Hid Hne Hout.
  unfold handleAddSongClick. rewrite Hid, truthy_nonempty by done.
  cbn [negb tracks].
  assert (Hfind : find (fun t => bool_decide (Some (track_id t) = Some id))
                    (default [] storedTracksData) = None).
  { match goal with
    | |- find ?f ?l = None => destruct (find f l) as [t|] eqn:Hfind
    end; [|done].
    apply find_some in Hfind as [Hin Heq].
    apply bool_decide_eq_true in Heq. injection Heq as Heq.
    by apply list_elem_of_In, Hout in Hin. }
  destruct (has_stored storedTracksData); [rewrite Hfind|];
    by destruct all_tracks.
Qed.

Lemma handleAddSongClick_falls_back_to_all_tracks_witness :
  Js.or_str None (Some "t3") = Some "t3" ∧ "t3" ≠ ""
  ∧ (∀ t, t ∈ default [] (Some [Samples.track_a]) → track_id t ≠ "t3")
  ∧ handleAddSongClick Samples.append_first (Some [Samples.track_a])
      (Some [MoreSamples.track_c]) (Some "t3") None []
    = (Samples.append_first {| tracks := Some [MoreSamples.track_c] |} [],
       [{| tracks := Some [MoreSamples.track_c] |}]).
Proof.
  assert (Hout : ∀ t, t ∈ default [] (Some [Samples.track_a]) → track_id t ≠ "t3").
  { intros t Ht. apply list_elem_of_singleton in Ht as ->. discriminate. }
  split; [reflexivity|]. split; [done|]. split; [exact Hout|].
  by apply (handleAddSongClick_falls_back_to_all_tracks Samples.append_first
              (Some [Samples.track_a]) (Some [MoreSamples.track_c]) (Some "t3")
              None "t3").
Defined.

(** X6.  A click makes at most one call to [handleAddSong]; the state
    changes through that call only; and the call's argument is the whole
    stored list or the whole [tracks] list, never the requested id. *)
Theorem handleAddSongClick_at_most_one_call
    {S : Type} (handleAddSong : TracksData → S → S)
    (storedTracksData all_tracks : option (list Track))
    (selectedTrack trackId : option string) (s : S) :
  ∃ calls,
    handleAddSongClick handleAddSong storedTracksData all_tracks selectedTrack
      trackId s
    = (fold_left (fun st arg => handleAddSong arg st) calls s, calls)
    ∧ (length calls ≤ 1)%nat
    ∧ ∀ arg, arg ∈ calls →
        tracks arg = all_tracks
        ∨ (tracks arg = storedTracksData ∧ has_stored storedTracksData = true).
Proof.
  unfold handleAddSongClick.
  destruct (negb (Js.truthy_str (Js.or_str trackId selectedTrack))).
  { exists []. split; [done|]. split; [cbn; lia|]. by intros arg Harg%elem_of_nil. }
  assert (Hall : ∃ calls,
            (if Js.truthy_obj (tracks {| tracks := all_tracks |})
             then (handleAddSong {| tracks := all_tracks |} s,
                   [{| tracks := all_tracks |}])
             else (s, []))
            = (fold_left (fun st arg => handleAddSong arg st) calls s, calls)
            ∧ (length calls ≤ 1)%nat
            ∧ ∀ arg, arg ∈ calls →
                tracks arg = all_tracks
                ∨ (tracks arg = storedTracksData
                   ∧ has_stored storedTracksData = true)).
  { destruct (Js.truthy_obj _).
    - exists [{| tracks := all_tracks |}]. split; [done|]. split; [cbn; lia|].
      intros arg ->%list_elem_of_singleton. by left.
    - exists []. split; [done|]. split; [cbn; lia|].
      by intros arg Harg%elem_of_nil. }
  destruct (has_stored storedTracksData) eqn:Hstored; [|exact Hall].
  match goal with
  | |- context [find ?f ?l] => destruct (find f l)
  end; [|exact Hall].
  destruct storedTracksData as [stored|]; [|done]. cbn [default].
  exists [{| tracks := Some stored |}]. split; [done|]. split; [cbn; lia|].
  intros arg ->%list_elem_of_singleton. by right.
Qed.

Lemma str_or_falsy (x : option string) (d : string) :
  Js.truthy_str x = false → str_or x d = d.
Proof.
  destruct x as [c|]; [|done]. cbn. intros H%negb_false_iff. by rewrite H.
Qed.

Lemma str_or_truthy (c d : string) : c ≠ "" → str_or (Some c) d = c.
Proof. intros H%String.eqb_neq. cbn. by rewrite H. Qed.

(** X7.  A date that does not parse, or a date formatter that throws,
    gives the placeholder "TBD" in the title and in the description of a
    loaded show, not an error. *)
Theorem metadata_bad_date_TBD
    (getTime : string → option Z) (toLocaleDateString : Z → Completion string)
    (show : ShowView) (d : string) :
  date show = Some d →
  (getTime d = None
   ∨ ∃ t e, getTime d = Some t ∧ toLocaleDateString t = Throw e) →
  formattedDate getTime toLocaleDateString show = "TBD"
  ∧ ∃ artistName venueName venueLocation,
      metadata_effect getTime toLocaleDateString (Some show) false
      = Normal (Some
          {| title :=
               ("TheSet | " ++ artistName ++ " at " ++ venueName ++ " in "
                  ++ venueLocation ++ " | " ++ "TBD")%string;
             description :=
               ("Vote on " ++ artistName ++ "'s setlist for their show at "
                  ++ venueName ++ " in " ++ venueLocation ++ " on " ++ "TBD"
                  ++ ". Influence what songs they'll play live!")%string |}).
Proof.
  intros Hdate Hbad.
  assert (Hfmt : formattedDate getTime toLocaleDateString show = "TBD").
  { unfold formattedDate. rewrite Hdate.
    destruct (String.eqb d ""); [done|].
    destruct Hbad as [->|(t & e & -> & ->)]; done. }
  split; [done|].
  unfold metadata_effect, derive_metadata. cbn [negb]. rewrite Hfmt. eauto.
Qed.

Lemma metadata_bad_date_TBD_witness :
  let getTime := fun _ : string => Some 1744934400000 in
  let broken := fun _ : Z => @Throw string "RangeError: Incorrect locale" in
  date MoreSamples.dated_show = Some "2025-04-18"
  ∧ (getTime "2025-04-18" = None
     ∨ ∃ t e, getTime "2025-04-18" = Some t ∧ broken t = Throw e)
  ∧ formattedDate getTime broken MoreSamples.dated_show = "TBD".
Proof.
  intros getTime broken.
  assert (Hbad : getTime "2025-04-18" = None
                 ∨ ∃ t e, getTime "2025-04-18" = Some t ∧ broken t = Throw e).
  { right. by eexists _, _. }
  split; [reflexivity|]. split; [exact Hbad|].
  by apply (metadata_bad_date_TBD getTime broken MoreSamples.dated_show
              "2025-04-18").
Defined.

(** X8.  A non-empty date that parses is shown as [toLocaleDateString]
    returns it: that string ends the title of a loaded show and follows
    " on " in its description. *)
Theorem metadata_valid_date_formatted
    (getTime : string → option Z) (toLocaleDateString : Z → Completion string)
    (show : ShowView) (d shown : string) (t : Z) :
  date show = Some d → d ≠ "" →
  getTime d = Some t → toLocaleDateString t = Normal shown →
  ∃ artistName venueName venueLocation,
    metadata_effect getTime toLocaleDateString (Some show) false
    = Normal (Some
        {| title :=
             ("TheSet | " ++ artistName ++ " at " ++ venueName ++ " in "
                ++ venueLocation ++ " | " ++ shown)%string;
           description :=
             ("Vote on " ++ artistName ++ "'s setlist for their show at "
                ++ venueName ++ " in " ++ venueLocation ++ " on " ++ shown
                ++ ". Influence what songs they'll play live!")%string |}).
Proof.
  intros Hdate Hne%String.eqb_neq Hparse Hshown.
  unfold metadata_effect, derive_metadata, formattedDate. cbn [negb].
  rewrite Hdate, Hne, Hparse, Hshown. eauto.
Qed.

Lemma metadata_valid_date_formatted_witness :
  let getTime := fun _ : string => Some 1744934400000 in
  let format := fun _ : Z => Normal "Fri, Apr 18, 2025" in
  date MoreSamples.dated_show = Some "2025-04-18" ∧ "2025-04-18" ≠ ""
  ∧ getTime "2025-04-18" = Some 1744934400000
  ∧ format 1744934400000 = Normal "Fri, Apr 18, 2025"
  ∧ ∃ artistName venueName venueLocation,
      metadata_effect getTime format (Some MoreSamples.dated_show) false
      = Normal (Some
          {| title :=
               ("TheSet | " ++ artistName ++ " at " ++ venueName ++ " in "
                  ++ venueLocation ++ " | " ++ "Fri, Apr 18, 2025")%string;
             description :=
               ("Vote on " ++ artistName ++ "'s setlist for their show at "
                  ++ venueName ++ " in " ++ venueLocation ++ " on "
                  ++ "Fri, Apr 18, 2025"
                  ++ ". Influence what songs they'll play live!")%string |}).
Proof.
  intros getTime format.
  split; [reflexivity|]. split; [done|]. split; [reflexivity|].
  split; [reflexivity|].
  by apply (metadata_valid_date_formatted getTime format MoreSamples.dated_show
              "2025-04-18" "Fri, Apr 18, 2025" 1744934400000).
Defined.

(** X9.  A loaded show without artist name, venue name, city and state is
    titled with the defaults "Artist", "Venue" and "Location". *)
Theorem metadata_defaults
    (getTime : string → option Z) (toLocaleDateString : Z → Completion string)
    (show : ShowView) :
  Js.truthy_str (artist show ≫= artist_name) = false →
  Js.truthy_str (venue show ≫= venue_name) = false →
  Js.truthy_str (venue show ≫= venue_city) = false →
  Js.truthy_str (venue show ≫= venue_state) = false →
  metadata_effect getTime toLocaleDateString (Some show) false
  = Normal (Some
      {| title :=
           ("TheSet | Artist at Venue in Location | "
              ++ formattedDate getTime toLocaleDateString show)%string;
         description :=
           ("Vote on Artist's setlist for their show at Venue in Location on "
              ++ formattedDate getTime toLocaleDateString show
              ++ ". Influence what songs they'll play live!")%string |}).
Proof.
  intros Ha Hv Hc Hs.
  unfold metadata_effect, derive_metadata. cbn [negb].
  by rewrite !str_or_falsy.
Qed.

Lemma metadata_defaults_witness :
  let bare := {| artist := None; venue := None; date := None |} in
  Js.truthy_str (artist bare ≫= artist_name) = false
  ∧ metadata_effect (fun _ => None) (fun _ => Normal "never") (Some bare) false
    = Normal (Some
        {| title := "TheSet | Artist at Venue in Location | TBD";
           description :=
             "Vote on Artist's setlist for their show at Venue in Location on TBD. Influence what songs they'll play live!" |}).
Proof.
  intros bare. split; [reflexivity|].
  by apply (metadata_defaults (fun _ => None) (fun _ => Normal "never") bare).
Defined.

(** X10.  The location in the title and description of a loaded show is
    "city, state" when the venue has both, and the one it has when it has
    only one. *)
Theorem metadata_venue_location
    (getTime : string → option Z) (toLocaleDateString : Z → Completion string)
    (show : ShowView) (v : VenueRef) (location : string) :
  venue show = Some v →
  ((∃ c s, venue_city v = Some c ∧ c ≠ "" ∧ venue_state v = Some s ∧ s ≠ ""
           ∧ location = (c ++ ", " ++ s)%string)
   ∨ (venue_city v = Some location ∧ location ≠ ""
      ∧ Js.truthy_str (venue_state v) = false)
   ∨ (Js.truthy_str (venue_city v) = false
      ∧ venue_state v = Some location ∧ location ≠ "")) →
  let artistName := str_or (artist show ≫= artist_name) "Artist" in
  let venueName := str_or (venue_name v) "Venue" in
  metadata_effect getTime toLocaleDateString (Some show) false
  = Normal (Some
      {| title :=
           ("TheSet | " ++ artistName ++ " at " ++ venueName ++ " in "
              ++ location ++ " | "
              ++ formattedDate getTime toLocaleDateString show)%string;
         description :=
           ("Vote on " ++ artistName ++ "'s setlist for their show at "
              ++ venueName ++ " in " ++ location ++ " on "
              ++ formattedDate getTime toLocaleDateString show
              ++ ". Influence what songs they'll play live!")%string |}).
Proof.
  intros Hv Hloc. cbn zeta.
  unfold metadata_effect, derive_metadata. cbn [negb].
  rewrite Hv. cbn [mbind option_bind].
  destruct Hloc as [(c & s & Hc & Hcne & Hs & Hsne & ->)
                   |[(Hc & Hcne & Hs)|(Hc & Hs & Hsne)]].
  - rewrite Hc, Hs, !str_or_truthy by done.
    apply String.eqb_neq in Hcne as ->. apply String.eqb_neq in Hsne as ->.
    reflexivity.
  - rewrite Hc, str_or_truthy, (str_or_falsy (venue_state v)) by done.
    assert (String.eqb location "" = false) as Hl by by apply String.eqb_neq.
    rewrite Hl. cbn [negb andb]. unfold Js.or_str.
    rewrite truthy_nonempty, str_or_truthy by done. reflexivity.
  - rewrite Hs, str_or_truthy, (str_or_falsy (venue_city v)) by done.
    cbn [String.eqb negb andb]. unfold Js.or_str. cbn [Js.truthy_str String.eqb negb].
    rewrite str_or_truthy by done. reflexivity.
Qed.

Lemma metadata_venue_location_witness :
  let both := {| venue_name := Some "The Sphere"; venue_city := Some "Las Vegas";
                 venue_state := Some "NV" |} in
  venue MoreSamples.dated_show = Some both
  ∧ (∃ c s, venue_city both = Some c ∧ c ≠ "" ∧ venue_state both = Some s
            ∧ s ≠ "" ∧ "Las Vegas, NV" = (c ++ ", " ++ s)%string)
  ∧ metadata_effect (fun _ => None) (fun _ => Normal "never")
      (Some MoreSamples.dated_show) false
    = Normal (Some
        {| title := "TheSet | Phish at The Sphere in Las Vegas, NV | TBD";
           description :=
             "Vote on Phish's setlist for their show at The Sphere in Las Vegas, NV on TBD. Influence what songs they'll play live!" |}).
Proof.
  intros both.
  assert (Hboth : ∃ c s, venue_city both = Some c ∧ c ≠ ""
                         ∧ venue_state both = Some s ∧ s ≠ ""
                         ∧ "Las Vegas, NV" = (c ++ ", " ++ s)%string).
  { by exists "Las Vegas", "NV". }
  split; [reflexivity|]. split; [exact Hboth|].
  apply (metadata_venue_location (fun _ => None) (fun _ => Normal "never")
           MoreSamples.dated_show both "Las Vegas, NV" eq_refl (or_introl Hboth)).
Defined.

End HookMore.

(** ** More on the artists database module *)

Module ArtistsMore.
Import Effects Artists Run.
Import Samples (down, answer, refuse).

Ltac unfold_save :=
  unfold saveArtistToDatabase, check_artist, write_artist; unfold_ops.

Ltac unfold_fetch :=
  unfold fetchAndStoreArtistTracks, store_tracks; unfold_ops.

(** Case analysis on a run kept aside as [run], with the statement to prove
    folded until each case is reached. *)
Ltac by_cases_on run unfolder :=
  match goal with |- ?G => set (claim := G) end;
  match goal with H : run = _ |- _ => revert H end;
  unfolder.

(** X11.  An artist object that is [null] or has no id (or an empty one) is
    rejected: [saveArtistToDatabase] returns [null] after logging, without
    any call to the store and without starting a task. *)
Theorem saveArtistToDatabase_rejects_missing_id
    {St : Type} (be : Backend St) (st : St) (artist : option ArtistObj) :
  Js.truthy_str (artist ≫= a_id) = false →
  saveArtistToDatabase be artist (init st)
  = (Normal None,
     {| store := st; events := [ConsoleError "Invalid artist object:"];
        pending := [] |}).
Proof.
  intros Hid. unfold_save.
  destruct artist as [a|]; [|done]. cbn in Hid.
  destruct (a_id a) as [id|]; [|done].
  cbn in Hid. apply negb_false_iff in Hid. by rewrite Hid.
Qed.

Lemma saveArtistToDatabase_rejects_missing_id_witness :
  Js.truthy_str (Some MoreSamples.nameless_artist ≫= a_id) = false
  ∧ saveArtistToDatabase (Samples.scripted down down down down down down down
                            down down)
      (Some MoreSamples.nameless_artist) (init 0)
    = (Normal None,
       {| store := 0; events := [ConsoleError "Invalid artist object:"];
          pending := [] |}).
Proof.
  split; [reflexivity|].
  by apply saveArtistToDatabase_rejects_missing_id.
Defined.

(** X12.  When the existence check throws, or answers without a row (with
    or without an error object), [saveArtistToDatabase] goes on to write:
    the prepared record is handed to the upsert. *)
Theorem saveArtistToDatabase_writes_after_failed_lookup
    {St : Type} (be : Backend St) (st : St) (artist : ArtistObj) (id : string)
    (lookup : Completion (Response (option ArtistObj))) :
  let run := saveArtistToDatabase be (Some artist) (init st) in
  ArtistsSelect id lookup ∈ events run.2 →
  match lookup with
  | Normal r => data r = None
  | Throw _ => True
  end →
  ∃ now answer,
    ArtistsUpsert (prepare_artist artist now) answer ∈ events run.2.
Proof.
  cbn zeta.
  remember (saveArtistToDatabase be (Some artist) (init st)) as run eqn:Hrun.
  by_cases_on run unfold_save.
  destruct (a_id artist) as [id'|];
    [|intros ->; subst claim; intros He; in_trace He].
  destruct (String.eqb id' ""); cbn [negb];
    [intros ->; subst claim; intros He; in_trace He|].
  run_all; intros ->; subst claim; cbn [fst snd events]; intros He Hlookup;
    in_trace He.
  all: injection He as -> ->; try congruence.
  all: do 2 eexists; find_event.
Qed.

Lemma saveArtistToDatabase_writes_after_failed_lookup_witness :
  let be := Samples.scripted down (answer None) down down down down down down
              down in
  let run := saveArtistToDatabase be (Some Samples.artist_A)
               (init Samples.request_time) in
  ArtistsSelect "A" (Throw "fetch failed") ∈ events run.2
  ∧ ∃ now answer,
      ArtistsUpsert (prepare_artist Samples.artist_A now) answer ∈ events run.2.
Proof.
  intros be run.
  assert (Hin : ArtistsSelect "A" (Throw "fetch failed") ∈ events run.2).
  { vm_compute. find_event. }
  split; [exact Hin|].
  exact (saveArtistToDatabase_writes_after_failed_lookup be Samples.request_time
           Samples.artist_A "A" (Throw "fetch failed") Hin I).
Defined.

(** The two outcomes of the existence check on a row that was found. *)
Lemma saveArtistToDatabase_keeps_row
    {St : Type} (be : Backend St) (st st1 st2 : St)
    (artist existing : ArtistObj) (id : string)
    (r : Response (option ArtistObj)) (now : Z) :
  a_id artist = Some id → id ≠ "" →
  artists_select be id st = (Normal r, st1) →
  data r = Some existing →
  clock be st1 = (now, st2) →
  needsUpdate artist existing now = false →
  ∃ w', saveArtistToDatabase be (Some artist) (init st)
        = (Normal (Some existing), w')
        ∧ (∀ e, e ∈ events w' → is_write e = false)
        ∧ pending w' = [].
Proof.
  intros Hid Hne Hsel Hdata Hclock Hfresh.
  unfold_save. rewrite Hid.
  apply String.eqb_neq in Hne. rewrite Hne. cbn [negb store events pending init].
  rewrite Hsel. cbn [store events pending app].
  destruct (Js.truthy_obj (error r)); rewrite Hdata;
    cbn [store events pending app]; rewrite Hclock, Hfresh;
    cbn [negb store events pending app];
    eexists; (split; [reflexivity|]); (split; [|done]);
    intros e He; in_trace He; by subst e.
Qed.

Lemma saveArtistToDatabase_rewrites_row
    {St : Type} (be : Backend St) (st st1 st2 : St)
    (artist existing : ArtistObj) (id : string)
    (r : Response (option ArtistObj)) (now : Z) :
  a_id artist = Some id → id ≠ "" →
  artists_select be id st = (Normal r, st1) →
  data r = Some existing →
  clock be st1 = (now, st2) →
  needsUpdate artist existing now = true →
  ∃ now' answer,
    ArtistsUpsert (prepare_artist artist now') answer
    ∈ events (saveArtistToDatabase be (Some artist) (init st)).2.
Proof.
  intros Hid Hne Hsel Hdata Hclock Hstale.
  unfold_save. rewrite Hid.
  apply String.eqb_neq in Hne. rewrite Hne. cbn [negb store events pending init].
  rewrite Hsel. cbn [store events pending app].
  destruct (Js.truthy_obj (error r)); rewrite Hdata;
    cbn [store events pending app]; rewrite Hclock, Hstale;
    cbn [negb store events pending app];
    next_call; next_call; do 2 eexists.
  all: run_all; find_event.
Qed.

(** X13.  An existing artist row whose [updated_at] does not parse counts
    as fresh: with stored tracks on the row and no new data offered, it is
    returned as it is, whatever the time, and nothing is written. *)
Theorem saveArtistToDatabase_unparsable_age_is_fresh
    {St : Type} (be : Backend St) (st st1 st2 : St)
    (artist existing : ArtistObj) (id : string)
    (r : Response (option ArtistObj)) (now : Z) :
  a_id artist = Some id → id ≠ "" →
  artists_select be id st = (Normal r, st1) →
  data r = Some existing →
  clock be st1 = (now, st2) →
  a_updated_at existing = Js.TsGarbage →
  is_Some (a_stored_tracks existing) →
  offers_new_data artist existing = false →
  ∃ w', saveArtistToDatabase be (Some artist) (init st)
        = (Normal (Some existing), w')
        ∧ (∀ e, e ∈ events w' → is_write e = false)
        ∧ pending w' = [].
Proof.
  intros Hid Hne Hsel Hdata Hclock Hat [ts Hts] Hoffer.
  apply (saveArtistToDatabase_keeps_row be st st1 st2 artist existing id r now);
    try done.
  rewrite ArtistsFacts.needsUpdate_split, Hoffer, Hts, Hat. reflexivity.
Qed.

Lemma saveArtistToDatabase_unparsable_age_is_fresh_witness :
  let be := Samples.scripted (answer (Some MoreSamples.odd_row_A)) down down down
              down down down down down in
  a_updated_at MoreSamples.odd_row_A = Js.TsGarbage
  ∧ ∃ w', saveArtistToDatabase be (Some Samples.artist_A)
            (init Samples.request_time)
          = (Normal (Some MoreSamples.odd_row_A), w')
          ∧ (∀ e, e ∈ events w' → is_write e = false)
          ∧ pending w' = [].
Proof.
  intros be. split; [reflexivity|].
  apply (saveArtistToDatabase_unparsable_age_is_fresh be Samples.request_time
           Samples.request_time (Samples.request_time + 1) Samples.artist_A
           MoreSamples.odd_row_A "A"
           {| data := Some MoreSamples.odd_row_A; error := None |}
           Samples.request_time);
    first [reflexivity | discriminate | by eexists].
Defined.

(** X14.  An existing artist row is written again, even if it carries
    stored tracks, in each of these cases: it was updated more than seven
    days ago; it has no [updated_at] and the clock is more than seven days
    past the epoch; the caller's object has a non-empty [spotify_id] and the
    row has none; the caller's object has a non-zero [upcoming_shows] field
    (the snake-case one; [upcomingShows] is not looked at here) greater
    than the row's [upcoming_shows], counted as 0 when absent. *)
Theorem saveArtistToDatabase_rewrites_stale_row
    {St : Type} (be : Backend St) (st st1 st2 : St)
    (artist existing : ArtistObj) (id : string)
    (r : Response (option ArtistObj)) (now : Z) :
  a_id artist = Some id → id ≠ "" →
  artists_select be id st = (Normal r, st1) →
  data r = Some existing →
  clock be st1 = (now, st2) →
  ((∃ t, a_updated_at existing = Js.TsAt t ∧ 7 * Js.MS_PER_DAY < now - t)
   ∨ (a_updated_at existing = Js.TsMissing ∧ 7 * Js.MS_PER_DAY < now)
   ∨ (∃ sid, a_spotify_id artist = Some sid ∧ sid ≠ ""
             ∧ Js.truthy_str (a_spotify_id existing) = false)
   ∨ (∃ n m, a_upcoming_shows artist = Some n ∧ n ≠ 0
             ∧ Js.or_num (a_upcoming_shows existing) (Some 0) = Some m
             ∧ m < n)) →
  ∃ now' answer,
    ArtistsUpsert (prepare_artist artist now') answer
    ∈ events (saveArtistToDatabase be (Some artist) (init st)).2.
Proof.
  intros Hid Hne Hsel Hdata Hclock Hwhy.
  apply (saveArtistToDatabase_rewrites_row be st st1 st2 artist existing id r now);
    try done.
  rewrite ArtistsFacts.needsUpdate_split.
  destruct Hwhy as [(t & Hat & Hage)|[[Hat Hage]|[(sid & Hs & Hsne & Hrow)
                                                 |(n & m & Hn & Hnz & Hm & Hlt)]]].
  - rewrite Hat. cbn [Js.getTime_or_epoch].
    apply JsFacts.days_gt in Hage. by rewrite Hage.
  - rewrite Hat. cbn [Js.getTime_or_epoch].
    assert (H0 : 7 * Js.MS_PER_DAY < now - 0) by lia.
    apply JsFacts.days_gt in H0. by rewrite H0.
  - unfold offers_new_data. rewrite Hs, Hrow. cbn [Js.truthy_str negb].
    apply String.eqb_neq in Hsne as ->. cbn [negb andb orb].
    by rewrite orb_true_r.
  - unfold offers_new_data. rewrite Hn, Hm.
    apply Z.eqb_neq in Hnz as ->. apply Z.gtb_lt in Hlt as ->.
    cbn [negb andb]. by rewrite !orb_true_r.
Qed.

Lemma saveArtistToDatabase_rewrites_stale_row_witness :
  let be := Samples.scripted (answer (Some MoreSamples.old_row_A)) (answer None)
              down down down down down down down in
  (∃ t, a_updated_at MoreSamples.old_row_A = Js.TsAt t
        ∧ 7 * Js.MS_PER_DAY < Samples.request_time - t)
  ∧ ∃ now' answer,
      ArtistsUpsert (prepare_artist Samples.artist_A now') answer
      ∈ events (saveArtistToDatabase be (Some Samples.artist_A)
                  (init Samples.request_time)).2.
Proof.
  intros be.
  assert (Hold : ∃ t, a_updated_at MoreSamples.old_row_A = Js.TsAt t
                      ∧ 7 * Js.MS_PER_DAY < Samples.request_time - t).
  { eexists. split; [reflexivity|]. reflexivity. }
  split; [exact Hold|].
  apply (saveArtistToDatabase_rewrites_stale_row be Samples.request_time
           Samples.request_time (Samples.request_time + 1) Samples.artist_A
           MoreSamples.old_row_A "A"
           {| data := Some MoreSamples.old_row_A; error := None |}
           Samples.request_time);
    first [reflexivity | discriminate | by left].
Defined.

(** X15.  [saveArtistToDatabase] tries the insert only after the upsert of
    the same record was answered with a permission error (code 42501 or a
    message containing "permission denied"); it makes at most one upsert
    and at most one insert; and what it returns after an insert is the
    first inserted row when the insert succeeded with rows, the prepared
    record otherwise. *)
Theorem saveArtistToDatabase_insert_only_after_permission_error
    {St : Type} (be : Backend St) (st : St) (artist d : ArtistObj)
    (retry : Completion (Response (option (list ArtistObj)))) :
  let run := saveArtistToDatabase be (Some artist) (init st) in
  ArtistsInsert d retry ∈ events run.2 →
  (∃ r err, ArtistsUpsert d (Normal r) ∈ events run.2
            ∧ error r = Some err ∧ is_permission_error err = true)
  ∧ List.filter is_upsert (events run.2) ≠ []
  ∧ (length (List.filter is_upsert (events run.2)) ≤ 1)%nat
  ∧ List.filter is_insert (events run.2) = [ArtistsInsert d retry]
  ∧ run.1 = Normal (Some match retry with
                         | Normal {| error := None; data := rows |} =>
                             Js.first_or rows d
                         | _ => d
                         end).
Proof.
  cbn zeta.
  remember (saveArtistToDatabase be (Some artist) (init st)) as run eqn:Hrun.
  by_cases_on run unfold_save.
  destruct (a_id artist) as [id|];
    [|intros ->; subst claim; intros He; in_trace He].
  destruct (String.eqb id ""); cbn [negb];
    [intros ->; subst claim; intros He; in_trace He|].
  run_all; intros ->; subst claim; cbn [fst snd events]; intros He; in_trace He.
  all: injection He as -> ->; cbn [List.filter is_upsert is_insert app length].
  all: repeat match goal with
              | H : error ?r = _ |- _ => destruct r; cbn in H; subst
              end.
  all: split; [do 2 eexists; split; [find_event|by split]|].
  all: do 3 (split; [first [done | lia]|]); reflexivity.
Qed.

Lemma saveArtistToDatabase_insert_only_after_permission_error_witness :
  let denied := refuse None "42501" "permission denied for table artists" in
  let be := Samples.scripted (answer None) denied
              (answer (Some [Samples.written_row_A])) down down down down down
              down in
  let d := prepare_artist Samples.artist_A Samples.request_time in
  let run := saveArtistToDatabase be (Some Samples.artist_A)
               (init Samples.request_time) in
  ArtistsInsert d (answer (Some [Samples.written_row_A])) ∈ events run.2
  ∧ ArtistsUpsert d denied ∈ events run.2
  ∧ run.1 = Normal (Some Samples.written_row_A).
Proof.
  intros denied be d run.
  assert (Hin : ArtistsInsert d (answer (Some [Samples.written_row_A]))
                ∈ events run.2).
  { vm_compute. find_event. }
  split; [exact Hin|].
  destruct (saveArtistToDatabase_insert_only_after_permission_error be
              Samples.request_time Samples.artist_A d _ Hin)
    as (_ & _ & _ & _ & Hres).
  split; [vm_compute; find_event|exact Hres].
Defined.

(** X16.  [saveArtistToDatabase] starts the catalogue population only after
    an upsert that succeeded, never after the insert-only retry or a failed
    write, and starts it at most once, for the artist's own id. *)
Theorem saveArtistToDatabase_task_only_after_upsert
    {St : Type} (be : Backend St) (st : St) (artist : ArtistObj)
    (id sid : string) (name : option string) :
  let run := saveArtistToDatabase be (Some artist) (init st) in
  FetchAndStoreArtistTracks id sid name ∈ pending run.2 →
  (∃ d r, ArtistsUpsert d (Normal r) ∈ events run.2 ∧ error r = None
          ∧ a_spotify_id d = Some sid)
  ∧ a_id artist = Some id ∧ name = a_name artist
  ∧ pending run.2 = [FetchAndStoreArtistTracks id sid name]
  ∧ List.filter is_insert (events run.2) = [].
Proof.
  cbn zeta.
  remember (saveArtistToDatabase be (Some artist) (init st)) as run eqn:Hrun.
  by_cases_on run unfold_save.
  destruct (a_id artist) as [id'|] eqn:Hid;
    [|intros ->; subst claim; intros He; in_trace He].
  destruct (String.eqb id' ""); cbn [negb];
    [intros ->; subst claim; intros He; in_trace He|].
  run_all; intros ->; subst claim; cbn [fst snd events pending]; intros He;
    in_trace He.
  all: injection He as <- <- <-.
  all: split; [do 2 eexists; split; [find_event|by split]|done].
Qed.

Lemma saveArtistToDatabase_task_only_after_upsert_witness :
  let be := Samples.scripted (answer (Some Samples.stale_row_A))
              (answer (Some [Samples.written_row_A])) down (Normal None) down
              down down down down in
  let run := saveArtistToDatabase be (Some Samples.artist_A)
               (init Samples.request_time) in
  FetchAndStoreArtistTracks "A" "X123" (Some "Phish") ∈ pending run.2
  ∧ List.filter is_insert (events run.2) = [].
Proof.
  intros be run.
  assert (Hin : FetchAndStoreArtistTracks "A" "X123" (Some "Phish")
                ∈ pending run.2).
  { vm_compute. apply list_elem_of_here. }
  split; [exact Hin|].
  by destruct (saveArtistToDatabase_task_only_after_upsert be
                 Samples.request_time Samples.artist_A _ _ _ Hin)
    as (_ & _ & _ & _ & Hnone).
Defined.

(** X17.  Preparing a record that is already prepared changes nothing but
    the timestamp: the object [saveArtistToDatabase] falls back to can be
    handed to it again and the same data are written. *)
Theorem prepare_artist_idempotent (artist : ArtistObj) (t t' : Z) :
  prepare_artist (prepare_artist artist t) t' = prepare_artist artist t'.
Proof.
  unfold prepare_artist.
  cbn [a_id a_name a_image a_image_url a_genres a_popularity a_upcomingShows
       a_upcoming_shows a_spotify_id a_stored_tracks].
  f_equal.
  - unfold Js.or_num. destruct (Js.truthy_num (a_popularity artist)) eqn:E;
      [by rewrite E|done].
  - unfold Js.or_num. cbn [Js.truthy_num].
    destruct (Js.truthy_num (a_upcomingShows artist)) eqn:E1.
    + by rewrite !E1.
    + destruct (Js.truthy_num (a_upcoming_shows artist)) eqn:E2;
        [by rewrite !E2|done].
  - unfold Js.or_str. destruct (Js.truthy_str (a_spotify_id artist)) eqn:E;
      [by rewrite E|done].
  - by destruct (a_stored_tracks artist).
Qed.

Lemma no_tracks_false (d : option TracksData) :
  no_tracks d = false → tracks_of d ≠ [].
Proof.
  destruct d as [[[[|t l]|]]|]; cbn; done.
Qed.

Lemma have_tracks_true (l : option (list Track)) :
  have_tracks l = true → l ≠ Some [].
Proof. by destruct l as [[|t l]|]. Qed.

(** X18.  [fetchAndStoreArtistTracks] never throws, whatever the store and
    the catalogue do, and never returns an empty list: its value is [null]
    or a list with at least one track. *)
Theorem fetchAndStoreArtistTracks_null_or_nonempty
    {St : Type} (be : Backend St) (st : St)
    (artistId spotifyId : string) (artistName : option string) :
  ∃ v w', fetchAndStoreArtistTracks be artistId spotifyId artistName (init st)
          = (Normal v, w')
          ∧ v ≠ Some [].
Proof.
  unfold_fetch.
  next_call; [|by eauto].
  destruct (have_tracks a) eqn:Hhave.
  { do 2 eexists. split; [reflexivity|]. by apply have_tracks_true. }
  next_call; [|by eauto].
  destruct (no_tracks a0) eqn:Hno; [by eauto|].
  apply no_tracks_false in Hno.
  assert (Hv : Some (tracks_of a0) ≠ Some []) by congruence.
  run_all; eauto.
Qed.

(** X19.  When the lookup of the stored tracks or the call to the external
    catalogue throws, [fetchAndStoreArtistTracks] logs the failure, returns
    [null] and writes nothing. *)
Theorem fetchAndStoreArtistTracks_failure_is_null
    {St : Type} (be : Backend St) (st : St)
    (artistId spotifyId : string) (artistName : option string) (x : Exn) :
  let run := fetchAndStoreArtistTracks be artistId spotifyId artistName (init st) in
  GetStoredTracksForArtist artistId (Throw x) ∈ events run.2
  ∨ GetArtistAllTracks spotifyId (Throw x) ∈ events run.2 →
  run.1 = Normal None
  ∧ ConsoleError "Error fetching and storing tracks for artist" ∈ events run.2
  ∧ ∀ e, e ∈ events run.2 → is_write e = false.
Proof.
  cbn zeta.
  remember (fetchAndStoreArtistTracks be artistId spotifyId artistName (init st))
    as run eqn:Hrun.
  by_cases_on run unfold_fetch.
  run_all; intros ->; subst claim; cbn [fst snd events];
    intros [He|He]; in_trace He.
  all: split; [done|]; split; [find_event|].
  all: intros ev Hev; in_trace Hev; by subst ev.
Qed.

Lemma fetchAndStoreArtistTracks_failure_is_null_witness :
  let be := Samples.scripted down down down (Normal (Some [])) down down down
              down down in
  let run := fetchAndStoreArtistTracks be "A" "X123" None (init 0) in
  GetArtistAllTracks "X123" (Throw "fetch failed") ∈ events run.2
  ∧ run.1 = Normal None
  ∧ ∀ e, e ∈ events run.2 → is_write e = false.
Proof.
  intros be run.
  assert (Hin : GetArtistAllTracks "X123" (Throw "fetch failed") ∈ events run.2).
  { vm_compute. find_event. }
  split; [exact Hin|].
  destruct (fetchAndStoreArtistTracks_failure_is_null be 0 "A" "X123" None
              "fetch failed" (or_intror Hin)) as (Hres & _ & Hquiet).
  by split.
Defined.

(** X20.  [fetchAndStoreArtistTracks] updates the artist row only after
    [updateArtistStoredTracks] has succeeded; the snapshot it puts on the
    row is the non-empty list it stored and returns, under the same artist
    id; and when [updateArtistStoredTracks] throws, the artist row is left
    alone and the failure is logged. *)
Theorem fetchAndStoreArtistTracks_writes_consistently
    {St : Type} (be : Backend St) (st : St)
    (artistId spotifyId : string) (artistName : option string) :
  let run := fetchAndStoreArtistTracks be artistId spotifyId artistName (init st) in
  (∀ id p r,
     ArtistsUpdate id p r ∈ events run.2 →
     id = artistId
     ∧ p_stored_tracks p ≠ []
     ∧ UpdateArtistStoredTracks artistId (p_stored_tracks p) (Normal tt)
       ∈ events run.2
     ∧ run.1 = Normal (Some (p_stored_tracks p)))
  ∧ (∀ id ts x,
       UpdateArtistStoredTracks id ts (Throw x) ∈ events run.2 →
       List.filter is_write (events run.2)
       = [UpdateArtistStoredTracks id ts (Throw x)]
       ∧ ConsoleError "Database error storing tracks:" ∈ events run.2).
Proof.
  cbn zeta.
  remember (fetchAndStoreArtistTracks be artistId spotifyId artistName (init st))
    as run eqn:Hrun.
  by_cases_on run unfold_fetch.
  next_call; [|intros ->; subst claim; split; intros ? ? ? He; in_trace He].
  destruct (have_tracks a);
    [intros ->; subst claim; split; intros ? ? ? He; in_trace He|].
  next_call; [|intros ->; subst claim; split; intros ? ? ? He; in_trace He].
  destruct (no_tracks a0) eqn:Hno;
    [intros ->; subst claim; split; intros ? ? ? He; in_trace He|].
  apply no_tracks_false in Hno.
  run_all; intros ->; subst claim; cbn [fst snd events];
    (split; intros ? ? ? He; in_trace He).
  all: injection He as -> -> ->; cbn [p_stored_tracks List.filter is_write].
  all: repeat match goal with u : unit |- _ => destruct u end.
  all: repeat split; first [done | find_event].
Qed.

Lemma fetchAndStoreArtistTracks_writes_consistently_witness :
  let fetched := Some {| tracks := Some [Samples.track_a] |} in
  let be := Samples.scripted down down down (Normal None) (Normal fetched)
              (Normal tt) down down down in
  let run := fetchAndStoreArtistTracks be "A" "X123" None (init 5) in
  let p := {| p_tracks_last_updated := 5; p_updated_at := 6;
              p_stored_tracks := [Samples.track_a] |} in
  ArtistsUpdate "A" p (Normal tt) ∈ events run.2
  ∧ UpdateArtistStoredTracks "A" [Samples.track_a] (Normal tt) ∈ events run.2
  ∧ run.1 = Normal (Some [Samples.track_a]).
Proof.
  intros fetched be run p.
  assert (Hin : ArtistsUpdate "A" p (Normal tt) ∈ events run.2).
  { vm_compute. find_event. }
  split; [exact Hin|].
  destruct (proj1 (fetchAndStoreArtistTracks_writes_consistently be 5 "A" "X123"
                     None) "A" p (Normal tt) Hin) as (_ & _ & Hstored & Hres).
  by split.
Defined.

Lemma fetchAndStoreArtistTracks_keeps_queue
    {St : Type} (be : Backend St) (w : World St)
    (artistId spotifyId : string) (artistName : option string) :
  pending (fetchAndStoreArtistTracks be artistId spotifyId artistName w).2
  = pending w.
Proof.
  rewrite ArtistsFacts.fetchAndStoreArtistTracks_frame. cbn [snd pending].
  destruct w as [st evs ts]. cbn [store pending].
  unfold_fetch. run_all; cbn [snd pending]; by rewrite app_nil_r.
Qed.

Lemma run_tasks_total {St : Type} (be : Backend St) (ts : list Task) :
  ∀ w : World St,
    ∃ w', run_tasks be ts w = (Normal tt, w') ∧ pending w' = pending w
          ∧ ∃ evs, events w' = events w ++ evs.
Proof.
  induction ts as [|[artistId spotifyId artistName] ts IH]; intros w.
  - exists w. split; [done|]. split; [done|]. exists []. by rewrite app_nil_r.
  - cbn [run_tasks run_task]. unfold try_catch, bind at 1 2, ret.
    pose proof (fetchAndStoreArtistTracks_keeps_queue be w artistId spotifyId
                  artistName) as Hq.
    pose proof (ArtistsFacts.fetchAndStoreArtistTracks_frame be w artistId
                  spotifyId artistName) as Hframe.
    destruct (ArtistsFacts.fetchAndStoreArtistTracks_total be w artistId
                spotifyId artistName) as (v & w1 & Hrun).
    cbn zeta in Hframe. rewrite Hrun in Hq, Hframe |- *. cbn [snd] in Hq.
    destruct (IH w1) as (w2 & Hrest & Hq2 & evs & Hevs).
    exists w2. split; [exact Hrest|]. split; [congruence|].
    injection Hframe as _ ->. cbn [events] in Hevs.
    rewrite Hevs, <- app_assoc. eauto.
Qed.

(** X21.  The event loop never throws: however many catalogue populations
    are queued and whatever they meet, [drain] runs them all, ends
    normally and leaves the queue empty. *)
Theorem drain_never_throws {St : Type} (be : Backend St) (w : World St) :
  ∃ w', drain be w = (Normal tt, w') ∧ pending w' = [].
Proof.
  unfold drain.
  destruct (run_tasks_total be (pending w)
              {| store := store w; events := events w; pending := [] |})
    as (w' & Hrun & Hq & _).
  by exists w'.
Qed.

(** X28.  Awaiting [saveArtistToDatabase] and then letting the event loop
    run gives the caller the value [saveArtistToDatabase] returned, on
    every input and whatever the background work meets; the trace of the
    call is kept as the beginning of the later trace and no task is left
    in the queue. *)
Theorem saveArtistToDatabase_then_idle_same_value
    {St : Type} (be : Backend St) (st : St) (artist : option ArtistObj) :
  let run := saveArtistToDatabase be artist (init st) in
  let later := saveArtistToDatabase_then_idle be artist (init st) in
  later.1 = run.1
  ∧ pending later.2 = []
  ∧ ∃ evs, events later.2 = events run.2 ++ evs.
Proof.
  cbn zeta. unfold saveArtistToDatabase_then_idle, bind, ret.
  destruct (ArtistsFacts.saveArtistToDatabase_total be st artist)
    as (v & w1 & -> & _).
  unfold drain.
  destruct (run_tasks_total be (pending w1)
              {| store := store w1; events := events w1; pending := [] |})
    as (w2 & -> & Hq & evs & Hevs).
  cbn [fst snd] in *. by eauto.
Qed.

End ArtistsMore.

(** ** More on src/lib/api/database/shows.ts *)

Module ShowsMore.
Import Effects Shows Run.
Import Samples (down, answer, refuse).

Ltac unfold_save :=
  unfold saveShowToDatabase, check_show, prepare_show, date_to_iso, write_show;
  unfold_ops.

Ltac by_cases_on run unfolder :=
  match goal with |- ?G => set (claim := G) end;
  match goal with H : run = _ |- _ => revert H end;
  unfolder.

(** X22.  A show object that is [null] or has no id (or an empty one) is
    rejected: [saveShowToDatabase] returns [null] after logging, without
    any call to the store. *)
Theorem saveShowToDatabase_rejects_missing_id
    {St : Type} (be : Backend St) (st : St) (show : option ShowObj) :
  Js.truthy_str (show ≫= s_id) = false →
  saveShowToDatabase be show (init st)
  = (Normal None,
     {| store := st; events := [ConsoleError "Invalid show object:"];
        pending := [] |}).
Proof.
  intros Hid. unfold_save.
  destruct show as [s|]; [|done]. cbn in Hid.
  destruct (s_id s) as [id|]; [|done].
  cbn in Hid. apply negb_false_iff in Hid. by rewrite Hid.
Qed.

Lemma saveShowToDatabase_rejects_missing_id_witness :
  Js.truthy_str (Some MoreSamples.anonymous_show ≫= s_id) = false
  ∧ saveShowToDatabase (Samples.scripted down down down down down down down
                          down down)
      (Some MoreSamples.anonymous_show) (init 0)
    = (Normal None,
       {| store := 0; events := [ConsoleError "Invalid show object:"];
          pending := [] |}).
Proof.
  split; [reflexivity|].
  by apply saveShowToDatabase_rejects_missing_id.
Defined.

(** X23.  A show whose date does not parse is never written: unless a
    fresh stored row is returned first, [saveShowToDatabase] catches the
    RangeError of the date conversion, logs it and returns the caller's
    object. *)
Theorem saveShowToDatabase_unparsable_date
    {St : Type} (be : Backend St) (st : St) (show : ShowObj) (id : string) :
  let run := saveShowToDatabase be (Some show) (init st) in
  s_id show = Some id → id ≠ "" →
  s_date show = Js.TsGarbage →
  (∀ e, e ∈ events run.2 → is_write e = false)
  ∧ ((run.1 = Normal (Some show)
      ∧ ConsoleError "Error in saveShowToDatabase:" ∈ events run.2)
     ∨ (∃ r existing, ShowsSelect id (Normal r) ∈ events run.2
                      ∧ data r = Some existing
                      ∧ run.1 = Normal (Some existing))).
Proof.
  cbn zeta. intros Hid Hne%String.eqb_neq Hdate.
  remember (saveShowToDatabase be (Some show) (init st)) as run eqn:Hrun.
  by_cases_on run unfold_save.
  rewrite Hid, Hne, Hdate. cbn [negb].
  run_all; intros ->; subst claim; cbn [fst snd events].
  all: split; [intros ev Hev; in_trace Hev; by subst ev|].
  all: first [left; split; [reflexivity|find_event]
             |right; do 2 eexists; split; [find_event|by split]].
Qed.

Lemma saveShowToDatabase_unparsable_date_witness :
  let be := Samples.scripted down down down down down down (answer None)
              (answer None) (answer None) in
  let run := saveShowToDatabase be (Some MoreSamples.undatable_show) (init 0) in
  s_id MoreSamples.undatable_show = Some "S" ∧ "S" ≠ ""
  ∧ s_date MoreSamples.undatable_show = Js.TsGarbage
  ∧ run.1 = Normal (Some MoreSamples.undatable_show)
  ∧ ∀ e, e ∈ events run.2 → is_write e = false.
Proof.
  intros be run.
  split; [reflexivity|]. split; [done|]. split; [reflexivity|].
  assert (Hne : "S" ≠ "") by done.
  destruct (saveShowToDatabase_unparsable_date be 0 MoreSamples.undatable_show
              "S" eq_refl Hne eq_refl) as [Hquiet _].
  split; [reflexivity|exact Hquiet].
Defined.

(** X24.  An existing show row is written again when it was updated 24
    hours ago or more, when its [updated_at] does not parse, or when it
    has none and the clock is at least 24 hours past the epoch: provided
    the show's own date parses, a record with the show's id and date is
    handed to the upsert. *)
Theorem saveShowToDatabase_rewrites_stale_row
    {St : Type} (be : Backend St) (st st1 st2 : St)
    (show existing : ShowObj) (id : string)
    (r : Response (option ShowObj)) (now : Z) :
  s_id show = Some id → id ≠ "" →
  s_date show ≠ Js.TsGarbage →
  shows_select be id st = (Normal r, st1) →
  data r = Some existing →
  clock be st1 = (now, st2) →
  ((∃ t, s_updated_at existing = Js.TsAt t ∧ 24 * Js.MS_PER_HOUR <= now - t)
   ∨ s_updated_at existing = Js.TsGarbage
   ∨ (s_updated_at existing = Js.TsMissing ∧ 24 * Js.MS_PER_HOUR <= now)) →
  ∃ d answer,
    ShowsUpsert d answer ∈ events (saveShowToDatabase be (Some show) (init st)).2
    ∧ s_id d = Some id ∧ s_date d = s_date show.
Proof.
  intros Hid Hne%String.eqb_neq Hdate Hsel Hdata Hclock Hwhy.
  assert (Hstale : updated_recently existing now = false).
  { unfold updated_recently.
    destruct Hwhy as [(t & -> & Hage)|[->|[-> Hage]]];
      cbn [Js.getTime_or_epoch]; [| reflexivity |].
    - apply not_true_iff_false. rewrite JsFacts.hours_lt. lia.
    - apply not_true_iff_false. rewrite JsFacts.hours_lt. lia. }
  unfold_save. rewrite Hid, Hne. cbn [negb store events pending init].
  rewrite Hsel. cbn [store events pending app].
  destruct (s_date show) eqn:Hd; [| |done].
  all: destruct (error r) as [err|];
    [destruct (String.eqb (code err) "42501")|];
    rewrite Hdata; cbn [store events pending app]; rewrite Hclock, Hstale;
    cbn [store events pending app].
  all: run_all; do 2 eexists; (split; [find_event|by split]).
Qed.

Lemma saveShowToDatabase_rewrites_stale_row_witness :
  let be := Samples.scripted down down down down down down
              (answer (Some MoreSamples.stale_row_S)) (answer None) down in
  (∃ t, s_updated_at MoreSamples.stale_row_S = Js.TsAt t
        ∧ 24 * Js.MS_PER_HOUR <= Samples.request_time - t)
  ∧ ∃ d answer,
      ShowsUpsert d answer
      ∈ events (saveShowToDatabase be (Some Samples.show_S)
                  (init Samples.request_time)).2
      ∧ s_id d = Some "S" ∧ s_date d = s_date Samples.show_S.
Proof.
  intros be.
  assert (Hold : ∃ t, s_updated_at MoreSamples.stale_row_S = Js.TsAt t
                      ∧ 24 * Js.MS_PER_HOUR <= Samples.request_time - t).
  { eexists. split; [reflexivity|]. by vm_compute. }
  split; [exact Hold|].
  apply (saveShowToDatabase_rewrites_stale_row be Samples.request_time
           Samples.request_time (Samples.request_time + 1) Samples.show_S
           MoreSamples.stale_row_S "S"
           {| data := Some MoreSamples.stale_row_S; error := None |}
           Samples.request_time);
    first [reflexivity | discriminate | by left].
Defined.

(** X25.  The write of [saveShowToDatabase] as the code has it.  There is
    one upsert, of the prepared record [d].  When it is answered with an
    error object, of any code, one insert of [d] follows, and the value is
    the first inserted row if the insert succeeded with rows, [d]
    otherwise.  When it succeeds there is no insert and the value is the
    first returned row, or [d] if there is none.  When it throws there is
    no insert and the value is [d]. *)
Theorem saveShowToDatabase_write_sequence
    {St : Type} (be : Backend St) (st : St) (show d : ShowObj)
    (answer : Completion (Response (option (list ShowObj)))) :
  let run := saveShowToDatabase be (Some show) (init st) in
  ShowsUpsert d answer ∈ events run.2 →
  List.filter is_upsert (events run.2) = [ShowsUpsert d answer]
  ∧ match answer with
    | Normal {| error := Some err |} =>
        ∃ retry, List.filter is_insert (events run.2) = [ShowsInsert d retry]
                 ∧ match retry with
                   | Normal {| error := None; data := rows |} =>
                       run.1 = Normal (Some (Js.first_or rows d))
                   | _ => run.1 = Normal (Some d)
                   end
    | Normal {| error := None; data := rows |} =>
        List.filter is_insert (events run.2) = []
        ∧ run.1 = Normal (Some (Js.first_or rows d))
    | Throw _ =>
        List.filter is_insert (events run.2) = [] ∧ run.1 = Normal (Some d)
    end.
Proof.
  cbn zeta.
  remember (saveShowToDatabase be (Some show) (init st)) as run eqn:Hrun.
  by_cases_on run unfold_save.
  destruct (s_id show) as [id|];
    [|intros ->; subst claim; intros He; in_trace He].
  destruct (String.eqb id ""); cbn [negb];
    [intros ->; subst claim; intros He; in_trace He|].
  run_all; intros ->; subst claim; cbn [fst snd events]; intros He; in_trace He.
  all: injection He as -> ->; cbn [List.filter is_upsert is_insert app].
  all: repeat match goal with
              | H : error ?r = _ |- _ => destruct r; cbn in H; subst
              end.
  all: try (split; [reflexivity|]); try (eexists; split; [reflexivity|]);
    cbn [data]; auto.
Qed.

Lemma saveShowToDatabase_write_sequence_witness :
  let timeout := refuse None "57014" "canceling statement due to statement timeout" in
  let be := Samples.scripted down down down down down down (answer None) timeout
              (refuse None "23505" "duplicate key value") in
  let run := saveShowToDatabase be (Some Samples.show_S)
               (init Samples.request_time) in
  ShowsUpsert Samples.prepared_S timeout ∈ events run.2
  ∧ List.filter is_upsert (events run.2) = [ShowsUpsert Samples.prepared_S timeout]
  ∧ ∃ retry,
      List.filter is_insert (events run.2)
      = [ShowsInsert Samples.prepared_S retry].
Proof.
  intros timeout be run.
  assert (Hin : ShowsUpsert Samples.prepared_S timeout ∈ events run.2).
  { vm_compute. find_event. }
  split; [exact Hin|].
  destruct (saveShowToDatabase_write_sequence be Samples.request_time
              Samples.show_S Samples.prepared_S timeout Hin)
    as (Hone & retry & Hretry & _).
  split; [exact Hone|]. by exists retry.
Defined.

End ShowsMore.

(** ** Point lookups *)

Module LookupsFacts.
Import Effects Lookups Run.

(** X26.  [getArtistById] never throws.  It returns the row of the answer
    exactly when the query ends normally without an error object; when the
    query throws or answers with an error object it logs and returns
    [null], even if the answer carries a row. *)
Theorem getArtistById_result
    {St : Type}
    (select_artist : string → St → Completion (Response (option ArtistObj)) * St)
    (artistId : string) (st : St) :
  let run := getArtistById select_artist artistId (init st) in
  match select_artist artistId st with
  | (Normal r, st') =>
      match error r with
      | None => run = (Normal (data r), init st')
      | Some _ =>
          run = (Normal None,
                 {| store := st';
                    events := [ConsoleError "Error fetching artist from database:"];
                    pending := [] |})
      end
  | (Throw _, st') =>
      run = (Normal None,
             {| store := st';
                events := [ConsoleError "Error in getArtistById:"];
                pending := [] |})
  end.
Proof.
  cbn zeta. unfold getArtistById, await. unfold_ops.
  destruct (select_artist artistId st) as [[r|x] st']; [|done].
  by destruct (error r).
Qed.

(** X27.  [getShowFromDatabase] never throws.  It returns the joined row of
    the answer exactly when the query ends normally without an error
    object; when the query throws or answers with an error object it logs
    and returns [null], even if the answer carries a row. *)
Theorem getShowFromDatabase_result
    {St : Type}
    (select_show : string → St → Completion (Response (option JoinedShow)) * St)
    (showId : string) (st : St) :
  let run := getShowFromDatabase select_show showId (init st) in
  match select_show showId st with
  | (Normal r, st') =>
      match error r with
      | None => run = (Normal (data r), init st')
      | Some _ =>
          run = (Normal None,
                 {| store := st';
                    events := [ConsoleError "Error fetching show from database:"];
                    pending := [] |})
      end
  | (Throw _, st') =>
      run = (Normal None,
             {| store := st';
                events := [ConsoleError "Error in getShowFromDatabase:"];
                pending := [] |})
  end.
Proof.
  cbn zeta. unfold getShowFromDatabase, await. unfold_ops.
  destruct (select_show showId st) as [[r|x] st']; [|done].
  by destruct (error r).
Qed.

End LookupsFacts.
